(** * arigo: the aria2 JSON-RPC client ([client.go])

    A shallow embedding of the notification router, the completion registry,
    the download orchestrator and the batch-result decoder of [client.go],
    followed by the properties established about them. *)

From Stdlib Require Import ZArith String Ascii List Bool Lia.
From stdpp Require Import base option list gmap strings.

Open Scope string_scope.
Open Scope list_scope.

(** ** Go values *)

(** A Go [error] is [nil] or a value made by [errors.New msg]; only its
    message is observed. *)
Definition error := option string.
Definition errors_New (msg : string) : error := Some msg.

(** ** encoding/json, as far as [MultiCall] uses it *)

Module Json.

(** A JSON text, by the value it denotes. Number literals are kept in two
    classes, because decoding into a Go [int] accepts only the first:
    [Int z] is a literal made of an optional sign and digits, [Frac lit] any
    literal with a fraction or an exponent. *)
#[local] Unset Elimination Schemes.
Inductive value :=
| Null
| Bool (b : bool)
| Int (z : Z)
| Frac (lit : string)
| Str (s : string)
| Arr (elems : list value)
| Obj (members : list (string * value)).
#[local] Set Elimination Schemes.

(** [json.RawMessage] / [[]byte] holding raw JSON: [None] is the nil slice
    (no text at all), [Some v] the text of the value [v]. *)
Definition RawMessage := option value.

Definition lower (c : ascii) : ascii :=
  let n := N_of_ascii c in
  if ((65 <=? n) && (n <=? 90))%N then ascii_of_N (n + 32) else c.

(** Object keys are matched with struct fields without regard to case
    (ASCII letters are folded here). *)
Fixpoint foldName (s : string) : string :=
  match s with
  | EmptyString => EmptyString
  | String c s' => String (lower c) (foldName s')
  end.

(** Range of [int] on a 64-bit platform. *)
Definition fits_int (z : Z) : bool := ((- 2 ^ 63 <=? z) && (z <=? 2 ^ 63 - 1))%Z.

End Json.

Import Json.

(** Modelled from the spec: the structured failure descriptor of a batch
    element (code + message); the struct is declared outside client.go. *)
Record MethodCallError := { Code : Z; Message : string }.

(** [MethodCallError{}] *)
Definition zeroMethodCallError : MethodCallError := {| Code := 0; Message := "" |}.

#[global] Instance MethodCallError_eq_dec : EqDecision MethodCallError.
Proof. solve_decision. Defined.

(** Decoding one object member into the struct: a member whose value does
    not fit the field's type is skipped and decoding carries on; [null]
    leaves the field as it is. *)
Definition decode_member (e : MethodCallError) (kv : string * value) : MethodCallError :=
  let (k, v) := kv in
  if String.eqb (foldName k) "code" then
    match v with
    | Int z => if fits_int z then {| Code := z; Message := Message e |} else e
    | _ => e
    end
  else if String.eqb (foldName k) "message" then
    match v with
    | Str s => {| Code := Code e; Message := s |}
    | _ => e
    end
  else e.

(** [json.Unmarshal(data, &methodErr)], the returned error dropped as at the
    call site. Anything but an object leaves the target untouched. *)
Definition Unmarshal_MethodCallError (data : RawMessage) (methodErr : MethodCallError)
  : MethodCallError :=
  match data with
  | Some (Obj members) => fold_left decode_member members methodErr
  | _ => methodErr
  end.

(** [json.Unmarshal(data, &resultArray)] for [resultArray [1]json.RawMessage],
    seen through its only slot: an array stores its first element and
    drops the others, an empty array zeroes the slot, anything else leaves
    the slot untouched. *)
Definition Unmarshal_resultArray (data : RawMessage) (slot : RawMessage) : RawMessage :=
  match data with
  | Some (Arr (x :: _)) => Some x
  | Some (Arr []) => None
  | _ => slot
  end.

(** Modelled from the spec: the Batch Result (opaque success payload,
    failure descriptor); the struct is declared outside client.go. [Error]
    is a pointer, [None] standing for nil. *)
Record MethodResult := { Result : RawMessage; Error : option MethodCallError }.

(** [MethodResult{}] *)
Definition zeroMethodResult : MethodResult := {| Result := None; Error := None |}.

(** The body of the loop of [MultiCall]. *)
Definition MultiCall_body (rawResult : RawMessage) : MethodResult :=
  let methodResult : RawMessage := None in
  let methodErr := Unmarshal_MethodCallError rawResult zeroMethodCallError in
  let methodResult :=
    if decide (methodErr = zeroMethodCallError)
    then Unmarshal_resultArray rawResult None
    else methodResult in
  {| Result := methodResult; Error := Some methodErr |}.

(** [for i, rawResult := range rawResults { ...; results[i] = ... }] *)
Fixpoint MultiCall_loop (i : nat) (rawResults : list RawMessage)
  (results : list MethodResult) : list MethodResult :=
  match rawResults with
  | [] => results
  | rawResult :: rest =>
      MultiCall_loop (S i) rest (<[i := MultiCall_body rawResult]> results)
  end.

(** [MultiCall], given what [rpcClient.Call("aria2.multicall", ...)] stored
    in [rawResults] and returned as [err]. *)
Definition MultiCall (rawResults : list RawMessage) (err : error)
  : list MethodResult * error :=
  let results := replicate (length rawResults) zeroMethodResult in
  (MultiCall_loop 0 rawResults results, err).

(** The two ways a Batch Result carries something. *)
Definition has_payload (r : MethodResult) : Prop := Result r ≠ None.
Definition has_failure (r : MethodResult) : Prop :=
  ∃ e, Error r = Some e ∧ e ≠ zeroMethodCallError.
Definition exactly_one_populated (r : MethodResult) : Prop :=
  (has_payload r ∧ ¬ has_failure r) ∨ (¬ has_payload r ∧ has_failure r).

(** The same, reading the [Error] field by its pointer alone. *)
Definition exactly_one_non_nil (r : MethodResult) : Prop :=
  (Result r ≠ None ∧ Error r = None) ∨ (Result r = None ∧ Error r ≠ None).

(** ** GIDs *)

(** Address of a [Client] value ([c *Client]). *)
Definition ClientPtr := option positive.

(** Modelled from the spec: the download handle object, declared outside
    client.go; [GetGID] builds it as [GID{c, gid}]. *)
Module GID.
Record t := mk { client : ClientPtr; GID : string }.
Definition zero : t := mk None "".
End GID.

Definition GetGID (c : positive) (gid : string) : GID.t := GID.mk (Some c) gid.

(** [AddMetalinkAtPosition], given what
    [rpcClient.Call("aria2.addMetalink", ...)] stored in [reply] and
    returned as [err]. *)
Definition AddMetalinkAtPosition (c : positive) (reply : list string) (err : error)
  : list GID.t * error :=
  let gids := replicate (length reply) GID.zero in
  let gids := fold_left (fun gids rawGID => gids ++ [GetGID c rawGID]) reply gids in
  (gids, err).

(** ** Events, channels and goroutines *)

(** Modelled from the spec: the Lifecycle Event payload, declared outside
    client.go; the handlers read its handle as [event.GID]. *)
Module DownloadEvent.
Record t := mk { GID : string }.
End DownloadEvent.

(** Modelled from the spec: an entry of the file list of a download,
    declared outside client.go; [Delete] reads its [Path]. *)
Record File := { Path : string }.

(** A [chan error], by the address of its buffer. *)
Definition chan := positive.

(** Every channel of client.go is made by [make(chan error, 1)]. *)
Definition chan_cap : nat := 1.

Inductive SelectCase := CaseDownloadDone | CaseCtxDone.

(** What leaves the process: a call to the aria2 server, a file removal. *)
Inductive Effect :=
| RpcCall (method : string) (args : list string)
| OsRemove (path : string).

Section Client.

(** Types declared outside client.go: the function values given to
    [Subscribe], [Status] with its zero value, and [Options]. *)
Context {Fn Status Options : Type}.
Variable zeroStatus : Status.

(** [EventListener], a func value; [None] is the nil func. *)
Definition EventListener : Type := option Fn.

Inductive Goroutine :=
| GoListener (listener : EventListener) (event : DownloadEvent.t)
| GoWait (gid : GID.t) (downloadDone : chan).

(** The two tables of [Client], and around them the part of the run-time
    system the client acts on: channel buffers, started goroutines, and
    the log of what left the process. *)
Record State := mkState {
  listeners : gmap string (list EventListener);
  activeGIDs : gmap string chan;
  chans : gmap chan (list error);
  goroutines : list Goroutine;
  effects : list Effect;
}.

Definition set_listeners (f : gmap string (list EventListener) → gmap string (list EventListener))
  (st : State) : State :=
  mkState (f (listeners st)) (activeGIDs st) (chans st) (goroutines st) (effects st).
Definition set_activeGIDs (f : gmap string chan → gmap string chan) (st : State) : State :=
  mkState (listeners st) (f (activeGIDs st)) (chans st) (goroutines st) (effects st).
Definition set_chans (f : gmap chan (list error) → gmap chan (list error)) (st : State) : State :=
  mkState (listeners st) (activeGIDs st) (f (chans st)) (goroutines st) (effects st).

(** [go f(x)]: the function value and its arguments are evaluated here, the
    call itself is made by the new goroutine; a nil [f] is found out there,
    when the call is made. *)
Definition go (g : Goroutine) (st : State) : State :=
  mkState (listeners st) (activeGIDs st) (chans st) (goroutines st ++ [g]) (effects st).

Definition perform (e : Effect) (st : State) : State :=
  mkState (listeners st) (activeGIDs st) (chans st) (goroutines st) (effects st ++ [e]).

(** The call a listener goroutine makes: calling the nil func is a run-time
    panic, which nothing recovers. *)
Inductive ListenerCall :=
| Invoke (f : Fn) (event : DownloadEvent.t)
| NilFuncPanic.

Definition listener_call (g : Goroutine) : option ListenerCall :=
  match g with
  | GoListener (Some f) event => Some (Invoke f event)
  | GoListener None _ => Some NilFuncPanic
  | GoWait _ _ => None
  end.

(** A piece of code that may park on a channel operation. *)
Inductive Run (A : Type) :=
| Returns (a : A) (st : State)
| Parks (st : State).
Arguments Returns {A} a st.
Arguments Parks {A} st.

(** [make(chan error, 1)] *)
Definition make_chan (st : State) : chan * State :=
  let ch := fresh (dom (chans st)) in
  (ch, set_chans (<[ch := []]>) st).

(** [ch <- v]; [None] when the sender has to wait. *)
Definition chan_send (ch : chan) (v : error) (st : State) : option State :=
  match chans st !! ch with
  | Some buf =>
      if decide (length buf < chan_cap)
      then Some (set_chans (<[ch := buf ++ [v]]>) st)
      else None
  | None => None
  end.

(** [<-ch]; [None] when the receiver has to wait. *)
Definition chan_recv (ch : chan) (st : State) : option (error * State) :=
  match chans st !! ch with
  | Some (v :: buf) => Some (v, set_chans (<[ch := buf]>) st)
  | _ => None
  end.

(** ** The client *)

(** The tables of [NewClient]. *)
Definition NewClient : State := mkState ∅ ∅ ∅ [] [].

Definition onEvent (name : string) (event : DownloadEvent.t) (st : State) : State :=
  match listeners st !! name with
  | None => st
  | Some ls => fold_left (fun st listener => go (GoListener listener event) st) ls st
  end.

Definition onDownloadStart (event : DownloadEvent.t) (st : State) : Run error :=
  let st := onEvent "downloadStart" event st in
  Returns None st.

Definition onDownloadPause (event : DownloadEvent.t) (st : State) : Run error :=
  let st := onEvent "downloadPause" event st in
  Returns None st.

Definition onDownloadStop (event : DownloadEvent.t) (st : State) : Run error :=
  let st := onEvent "downloadStop" event st in
  match activeGIDs st !! DownloadEvent.GID event with
  | Some channel =>
      match chan_send channel (errors_New "download stopped") st with
      | Some st => Returns None st
      | None => Parks st
      end
  | None => Returns None st
  end.

Definition onDownloadComplete (event : DownloadEvent.t) (st : State) : Run error :=
  let st := onEvent "downloadComplete" event st in
  match activeGIDs st !! DownloadEvent.GID event with
  | Some channel =>
      match chan_send channel None st with
      | Some st => Returns None st
      | None => Parks st
      end
  | None => Returns None st
  end.

Definition onDownloadError (event : DownloadEvent.t) (st : State) : Run error :=
  let st := onEvent "downloadError" event st in
  match activeGIDs st !! DownloadEvent.GID event with
  | Some channel =>
      match chan_send channel (errors_New "download encountered error") st with
      | Some st => Returns None st
      | None => Parks st
      end
  | None => Returns None st
  end.

Definition onBtDownloadComplete (event : DownloadEvent.t) (st : State) : Run error :=
  let st := onEvent "btDownloadComplete" event st in
  Returns None st.

(** The handlers [NewClient] registers with [rpcClient.Handle], by the
    name of the notification. *)
Definition handle (method : string) : option (DownloadEvent.t → State → Run error) :=
  if String.eqb method "aria2.onDownloadStart" then Some onDownloadStart
  else if String.eqb method "aria2.onDownloadPause" then Some onDownloadPause
  else if String.eqb method "aria2.onDownloadStop" then Some onDownloadStop
  else if String.eqb method "aria2.onDownloadComplete" then Some onDownloadComplete
  else if String.eqb method "aria2.onDownloadError" then Some onDownloadError
  else if String.eqb method "aria2.onBtDownloadComplete" then Some onBtDownloadComplete
  else None.

Definition Subscribe (name : string) (listener : EventListener) (st : State) : State :=
  let '(listeners_, st) :=
    match listeners st !! name with
    | Some ls => (ls, st)
    | None =>
        let ls : list EventListener := replicate 1 None in
        (ls, set_listeners (<[name := ls]>) st)
    end in
  set_listeners (<[name := listeners_ ++ [listener]]>) st.

(** [WaitForDownload] up to its receive: the channel it is going to read. *)
Definition WaitForDownload_register (gid : string) (st : State) : chan * State :=
  match activeGIDs st !! gid with
  | Some channel => (channel, st)
  | None =>
      let '(channel, st) := make_chan st in
      (channel, set_activeGIDs (<[gid := channel]>) st)
  end.

(** [WaitForDownload] from its receive on. *)
Definition WaitForDownload_receive (gid : string) (channel : chan) (st : State) : Run error :=
  match chan_recv channel st with
  | Some (err, st) => Returns err (set_activeGIDs (delete gid) st)
  | None => Parks st
  end.

Definition WaitForDownload (gid : string) (st : State) : Run error :=
  let '(channel, st) := WaitForDownload_register gid st in
  WaitForDownload_receive gid channel st.

(** ** Calls to the aria2 server *)

(** What [rpcClient.Call] stores in [reply] and returns, per method. *)
Record Remote := {
  reply_addUri : list string → option Options → option N → string * error;
  reply_tellStatus : string → Status * error;
  reply_remove : string → error;
  reply_getFiles : string → list File * error;
}.

Variable aria2 : Remote.

(** The address [c] of the client. *)
Variable c : positive.

Definition AddUriAtPosition (uris : list string) (options : option Options)
  (position : option N) (st : State) : (GID.t * error) * State :=
  let st := perform (RpcCall "aria2.addUri" uris) st in
  let '(reply, err) := reply_addUri aria2 uris options position in
  ((GetGID c reply, err), st).

Definition AddUri (uris : list string) (options : option Options) (st : State)
  : (GID.t * error) * State :=
  AddUriAtPosition uris options None st.

Definition Remove (gid : string) (st : State) : error * State :=
  (reply_remove aria2 gid, perform (RpcCall "aria2.remove" [gid]) st).

Definition TellStatus (gid : string) (st : State) : (Status * error) * State :=
  (reply_tellStatus aria2 gid, perform (RpcCall "aria2.tellStatus" [gid]) st).

Definition GetFiles (gid : string) (st : State) : (list File * error) * State :=
  (reply_getFiles aria2 gid, perform (RpcCall "aria2.getFiles" [gid]) st).

Definition Delete (gid : string) (st : State) : error * State :=
  let '(err, st) := Remove gid st in
  match err with
  | Some _ => (err, st)
  | None =>
      let '((files, err), st) := GetFiles gid st in
      let st :=
        match err with
        | None => fold_left (fun st file => perform (OsRemove (Path file)) st) files st
        | Some _ => st
        end in
      (err, st)
  end.

(** Modelled from the spec: the methods of the handle object that
    [DownloadWithContext] calls are declared outside client.go; each hands
    the handle's string to the client method of the same name. *)
Definition GID_WaitForDownload_register (gid : GID.t) := WaitForDownload_register (GID.GID gid).
Definition GID_WaitForDownload_receive (gid : GID.t) := WaitForDownload_receive (GID.GID gid).
Definition GID_TellStatus (gid : GID.t) := TellStatus (GID.GID gid).
Definition GID_Delete (gid : GID.t) := Delete (GID.GID gid).

(** The goroutine [go func() { downloadDone <- gid.WaitForDownload() }()],
    from the receive inside [WaitForDownload] on. *)
Definition GoWait_receive (gid : GID.t) (channel downloadDone : chan) (st : State) : Run unit :=
  match GID_WaitForDownload_receive gid channel st with
  | Returns err st =>
      match chan_send downloadDone err st with
      | Some st => Returns tt st
      | None => Parks st
      end
  | Parks st => Parks st
  end.

Definition GoWait_run (gid : GID.t) (downloadDone : chan) (st : State) : Run unit :=
  let '(channel, st) := GID_WaitForDownload_register gid st in
  GoWait_receive gid channel downloadDone st.

(** The state a piece of code leaves behind, returned or parked. *)
Definition Run_state {A : Type} (r : Run A) : State :=
  match r with
  | Returns _ st => st
  | Parks st => st
  end.

(** The scheduler lets the goroutine started last run as far as it gets,
    when that goroutine is the one of [DownloadWithContext]. *)
Definition run_wait_goroutine (st : State) : State :=
  match last (goroutines st) with
  | Some (GoWait gid downloadDone) => Run_state (GoWait_run gid downloadDone st)
  | _ => st
  end.

(** [downloadDone] holds a value: the wait has come to its end. *)
Definition done_pending (downloadDone : chan) (st : State) : Prop :=
  ∃ v buf, chans st !! downloadDone = Some (v :: buf).

(** ** DownloadWithContext *)

(** Where [DownloadWithContext] stands after its first part: it has
    returned, or it waits in the [select]. *)
Inductive Submitted :=
| Aborted (status : Status) (err : error) (st : State)
| AtSelect (gid : GID.t) (downloadDone : chan) (st : State).

Definition DownloadWithContext_submit (uris : list string) (options : option Options)
  (st : State) : Submitted :=
  let status := zeroStatus in
  let '((gid, err), st) := AddUri uris options st in
  match err with
  | Some _ => Aborted status err st
  | None =>
      let '(downloadDone, st) := make_chan st in
      let st := go (GoWait gid downloadDone) st in
      AtSelect gid downloadDone st
  end.

(** The cases of the [select] that can proceed: [downloadDone] holds a
    value, [ctx.Done()] is closed. *)
Definition ready_cases (downloadDone : chan) (ctx_done : bool) (st : State) : list SelectCase :=
  match chans st !! downloadDone with
  | Some (_ :: _) => [CaseDownloadDone]
  | _ => []
  end ++ (if ctx_done then [CaseCtxDone] else []).

(** Among several ready cases one is taken at random ([pick]); with none
    the [select] waits. *)
Definition select (pick : nat) (ready : list SelectCase) : option SelectCase :=
  ready !! (pick mod length ready).

Definition DownloadWithContext_select (gid : GID.t) (downloadDone : chan)
  (ctx_done : bool) (pick : nat) (st : State) : Run (Status * error) :=
  let status := zeroStatus in
  match select pick (ready_cases downloadDone ctx_done st) with
  | Some CaseDownloadDone =>
      match chan_recv downloadDone st with
      | Some (_, st) =>
          let '((status, err), st) := GID_TellStatus gid st in
          Returns (status, err) st
      | None => Parks st
      end
  | Some CaseCtxDone =>
      let '(_, st) := GID_Delete gid st in
      let err := errors_New "download cancelled" in
      Returns (status, err) st
  | None => Parks st
  end.

(** The whole call. [meanwhile] is what the rest of the process (the
    notification handlers, the goroutine started above) does to the state
    between the [go] statement and the moment the [select] is decided;
    [ctx_done] tells whether the context is cancelled by then. *)
Definition DownloadWithContext (meanwhile : State → State) (ctx_done : bool) (pick : nat)
  (uris : list string) (options : option Options) (st : State) : Run (Status * error) :=
  match DownloadWithContext_submit uris options st with
  | Aborted status err st => Returns (status, err) st
  | AtSelect gid downloadDone st =>
      DownloadWithContext_select gid downloadDone ctx_done pick (meanwhile st)
  end.

End Client.

Arguments EventListener : clear implicits.
Arguments Goroutine : clear implicits.
Arguments ListenerCall : clear implicits.
Arguments State : clear implicits.
Arguments Run : clear implicits.
Arguments Returns {Fn A} a st.
Arguments Parks {Fn A} st.
Arguments Run_state {Fn A} r.
Arguments Remote : clear implicits.
Arguments Submitted : clear implicits.

(** ** Two servers to run the client against *)

(** A server that accepts the download, then refuses to remove it. *)
Definition stubborn_server : Remote string unit :=
  {| reply_addUri := fun _ _ _ => ("2089b05ecca3d829", None);
     reply_tellStatus := fun _ => ("complete", None);
     reply_remove := fun _ => Some "GID 2089b05ecca3d829 is not found";
     reply_getFiles := fun _ => ([], None) |}.

(** A server that refuses the download. *)
Definition refusing_server : Remote string unit :=
  {| reply_addUri := fun _ _ _ => ("", Some "No URI to download.");
     reply_tellStatus := fun _ => ("complete", None);
     reply_remove := fun _ => None;
     reply_getFiles := fun _ => ([], None) |}.

(** ** Further methods of the client *)

(** A call that may end in a run-time panic. *)
Inductive GoResult (A : Type) :=
| Ok (a : A)
| Panic (msg : string).
Arguments Ok {A} a.
Arguments Panic {A} msg.

(** [ChangeURIAt], given what [rpcClient.Call("aria2.changeUri", ...)]
    stored in [reply] and returned as [err]; [reply[0]] is read first. *)
Definition ChangeURIAt (reply : list N) (err : error) : GoResult (N * N * error) :=
  match reply !! 0 with
  | None => Panic "index out of range [0]"
  | Some deleted =>
      match reply !! 1 with
      | None => Panic "index out of range [1]"
      | Some added => Ok (deleted, added, err)
      end
  end.

Definition ChangeURI (reply : list N) (err : error) : GoResult (N * N * error) :=
  ChangeURIAt reply err.

(** [Close], given what [rpcClient.Close()] and [ws.Close()] return; the
    first component is the [closed] flag it leaves. *)
Definition Close (rpcErr wsErr : error) : bool * error :=
  let closed := true in
  let err := rpcErr in
  let err := match err with None => wsErr | Some _ => err end in
  (closed, err).

Section Runs.

Context {Fn Status Options : Type}.
Variable zeroStatus : Status.
Variable aria2 : Remote Status Options.
Variable c : positive.

(** [Download]: the context is [context.Background()], whose [Done()] is
    the nil channel and is never ready. *)
Definition Download (meanwhile : State Fn → State Fn) (pick : nat)
  (uris : list string) (options : option Options) (st : State Fn) : Run Fn (Status * error) :=
  DownloadWithContext zeroStatus aria2 c meanwhile false pick uris options st.

(** The pieces of client code a process runs, in any order: each runs
    until it returns or parks. *)
Inductive Op :=
| OpSubscribe (name : string) (listener : EventListener Fn)
| OpNotify (method : string) (event : DownloadEvent.t)
| OpWaitForDownload (gid : string)
| OpWaitReceive (gid : string) (channel : chan)
| OpSubmit (uris : list string) (options : option Options)
| OpGoWait (gid : GID.t) (downloadDone : chan)
| OpGoWaitReceive (gid : GID.t) (channel downloadDone : chan)
| OpSelect (gid : GID.t) (downloadDone : chan) (ctx_done : bool) (pick : nat)
| OpDelete (gid : string).

Definition exec (st : State Fn) (op : Op) : State Fn :=
  match op with
  | OpSubscribe name listener => Subscribe name listener st
  | OpNotify method event =>
      match handle method with
      | Some handler => Run_state (handler event st)
      | None => st
      end
  | OpWaitForDownload gid => Run_state (WaitForDownload gid st)
  | OpWaitReceive gid channel => Run_state (WaitForDownload_receive gid channel st)
  | OpSubmit uris options =>
      match DownloadWithContext_submit zeroStatus aria2 c uris options st with
      | Aborted _ _ st => st
      | AtSelect _ _ st => st
      end
  | OpGoWait gid downloadDone => Run_state (GoWait_run gid downloadDone st)
  | OpGoWaitReceive gid channel downloadDone =>
      Run_state (GoWait_receive gid channel downloadDone st)
  | OpSelect gid downloadDone ctx_done pick =>
      Run_state (DownloadWithContext_select zeroStatus aria2 gid downloadDone ctx_done pick st)
  | OpDelete gid => (Delete aria2 gid st).2
  end.

(** The shape of the completion registry: every channel in [activeGIDs]
    exists, no two handles share a channel, and no channel holds more than
    its capacity. *)
Definition registry_wf (st : State Fn) : Prop :=
  (∀ h ch, activeGIDs st !! h = Some ch → is_Some (chans st !! ch))
  ∧ (∀ h1 h2 ch, activeGIDs st !! h1 = Some ch → activeGIDs st !! h2 = Some ch → h1 = h2)
  ∧ (∀ ch buf, chans st !! ch = Some buf → (length buf ≤ chan_cap)%nat).

End Runs.

Arguments Op : clear implicits.

(** * Properties *)

(** ** The batch-result decoder *)

Lemma MultiCall_loop_fmap (rawResults : list RawMessage) :
  ∀ (i : nat) (results : list MethodResult),
    length results = i + length rawResults →
    MultiCall_loop i rawResults results = take i results ++ (MultiCall_body <$> rawResults).
Proof.
  induction rawResults as [|rawResult rest IH]; intros i results Hlen; simpl in *.
  - rewrite app_nil_r, take_ge; [done | lia].
  - rewrite IH by (rewrite length_insert; lia).
    rewrite (take_S_r _ i (MultiCall_body rawResult)).
    + rewrite take_insert_ge by lia. by rewrite <- app_assoc.
    + apply list_lookup_insert_eq. lia.
Qed.

(** The loop fills every slot it allocated: the results are the loop body
    applied to each element, in order. *)
Lemma MultiCall_results (rawResults : list RawMessage) (err : error) :
  MultiCall rawResults err = (MultiCall_body <$> rawResults, err).
Proof.
  unfold MultiCall. rewrite MultiCall_loop_fmap; [done |].
  by rewrite length_replicate.
Qed.

Lemma MultiCall_lookup (rawResults : list RawMessage) (err : error) (i : nat) :
  (MultiCall rawResults err).1 !! i = MultiCall_body <$> rawResults !! i.
Proof. rewrite MultiCall_results. simpl. apply list_lookup_fmap. Qed.

Lemma MultiCall_body_failure (rawResult : RawMessage) :
  Unmarshal_MethodCallError rawResult zeroMethodCallError ≠ zeroMethodCallError →
  MultiCall_body rawResult =
    {| Result := None;
       Error := Some (Unmarshal_MethodCallError rawResult zeroMethodCallError) |}.
Proof. intros Hne. unfold MultiCall_body. by rewrite decide_False. Qed.

Lemma MultiCall_body_success (rawResult : RawMessage) :
  Unmarshal_MethodCallError rawResult zeroMethodCallError = zeroMethodCallError →
  MultiCall_body rawResult =
    {| Result := Unmarshal_resultArray rawResult None; Error := Some zeroMethodCallError |}.
Proof. intros Heq. unfold MultiCall_body. rewrite decide_True by done. by rewrite Heq. Qed.

Lemma has_failure_body (rawResult : RawMessage) :
  has_failure (MultiCall_body rawResult) ↔
  Unmarshal_MethodCallError rawResult zeroMethodCallError ≠ zeroMethodCallError.
Proof.
  unfold has_failure, MultiCall_body; simpl. split.
  - intros (e & [= <-] & Hne). done.
  - intros Hne. eauto.
Qed.

Lemma has_payload_body (rawResult : RawMessage) :
  has_payload (MultiCall_body rawResult) ↔
  Unmarshal_MethodCallError rawResult zeroMethodCallError = zeroMethodCallError ∧
  ∃ x rest, rawResult = Some (Arr (x :: rest)).
Proof.
  unfold has_payload, MultiCall_body; simpl.
  destruct (decide _) as [Hz|Hnz]; split.
  - intros Hp. split; [done |].
    destruct rawResult as [[| | | | |[|x rest]|]|]; simpl in Hp; try done. eauto.
  - intros (_ & x & rest & ->). done.
  - done.
  - intros [? _]. done.
Qed.

(** An object never decodes into the one-slot array. *)
Lemma Unmarshal_resultArray_Obj (members : list (string * value)) (slot : RawMessage) :
  Unmarshal_resultArray (Some (Obj members)) slot = slot.
Proof. reflexivity. Qed.

(** The [Error] pointer is set for every element, success or not. *)
Lemma MultiCall_Error_never_nil (rawResults : list RawMessage) (err : error) (i : nat)
  (r : MethodResult) :
  (MultiCall rawResults err).1 !! i = Some r → is_Some (Error r).
Proof.
  rewrite MultiCall_lookup. destruct (rawResults !! i); intros [= <-]. by eexists.
Qed.

(** C1, as stated, fails on the reply [[["OK"], {"code":0,"message":""}]]:
    the second Batch Result has no payload and no failure, and, if the
    [Error] field is read by its pointer alone, the first has both fields
    set. *)
Lemma MultiCall_not_exactly_one_populated :
  let results :=
    (MultiCall [Some (Arr [Str "OK"]); Some (Obj [("code", Int 0); ("message", Str "")])]
       None).1 in
  ¬ (∀ i r, results !! i = Some r → exactly_one_populated r)
  ∧ ¬ (∀ i r, results !! i = Some r → exactly_one_non_nil r).
Proof.
  intros results. split; intros Hall.
  - destruct (Hall 1 _ eq_refl) as [[Hp _] | [_ (e & [= <-] & Hne)]].
    + by apply Hp.
    + by apply Hne.
  - destruct (Hall 0 _ eq_refl) as [[_ He] | [Hr _]]; discriminate.
Qed.

(** C1, amended: at every position of the raw reply MultiCall produces a
    Batch Result which never carries both a payload and a non-zero failure
    descriptor, and which carries exactly one of them precisely when the
    element decodes to a non-zero descriptor or is a non-empty array;
    otherwise it carries neither. *)
Theorem MultiCall_at_most_one_populated (rawResults : list RawMessage) (err : error)
  (i : nat) (rawResult : RawMessage) :
  rawResults !! i = Some rawResult →
  ∃ r, (MultiCall rawResults err).1 !! i = Some r
       ∧ ¬ (has_payload r ∧ has_failure r)
       ∧ (exactly_one_populated r ↔
            Unmarshal_MethodCallError rawResult zeroMethodCallError ≠ zeroMethodCallError
            ∨ ∃ x rest, rawResult = Some (Arr (x :: rest))).
Proof.
  intros Hi. exists (MultiCall_body rawResult).
  rewrite MultiCall_lookup, Hi. split; [done |].
  unfold exactly_one_populated.
  rewrite has_failure_body, has_payload_body.
  destruct (decide (Unmarshal_MethodCallError rawResult zeroMethodCallError
                    = zeroMethodCallError)) as [Hz|Hnz].
  - tauto.
  - tauto.
Qed.

Lemma MultiCall_at_most_one_populated_witness :
  ∃ r, (MultiCall [Some (Arr [Str "OK"]); Some (Obj [("code", Int 1); ("message", Str "x")])]
          None).1 !! 1 = Some r
       ∧ ¬ (has_payload r ∧ has_failure r)
       ∧ (exactly_one_populated r ↔
            Unmarshal_MethodCallError (Some (Obj [("code", Int 1); ("message", Str "x")]))
              zeroMethodCallError ≠ zeroMethodCallError
            ∨ ∃ x rest, Some (Obj [("code", Int 1); ("message", Str "x")]) = Some (Arr (x :: rest))).
Proof.
  apply (MultiCall_at_most_one_populated
           [Some (Arr [Str "OK"]); Some (Obj [("code", Int 1); ("message", Str "x")])]
           None 1 (Some (Obj [("code", Int 1); ("message", Str "x")]))).
  reflexivity.
Defined.

(** C7: MultiCall is order-preserving. When element [i] of a raw reply
    decodes to a non-zero failure descriptor and every other element to the
    zero one, the results are as many as the elements, position [i] alone
    carries a failure (and no payload), and every other position carries
    what its element gives when decoded into the one-slot array: for a
    one-element array, its sole member. *)
Theorem MultiCall_order_preserving (rawResults : list RawMessage) (err : error) (i : nat) :
  i < length rawResults →
  (∀ raw, rawResults !! i = Some raw →
     Unmarshal_MethodCallError raw zeroMethodCallError ≠ zeroMethodCallError) →
  (∀ j raw, j ≠ i → rawResults !! j = Some raw →
     Unmarshal_MethodCallError raw zeroMethodCallError = zeroMethodCallError) →
  let results := (MultiCall rawResults err).1 in
  length results = length rawResults
  ∧ (∀ j r, results !! j = Some r → (has_failure r ↔ j = i))
  ∧ (∃ r, results !! i = Some r ∧ Result r = None)
  ∧ (∀ j raw, j ≠ i → rawResults !! j = Some raw →
       results !! j = Some {| Result := Unmarshal_resultArray raw None;
                              Error := Some zeroMethodCallError |})
  ∧ (∀ j x, j ≠ i → rawResults !! j = Some (Some (Arr [x]) : RawMessage) →
       results !! j = Some {| Result := Some x; Error := Some zeroMethodCallError |}).
Proof.
  intros Hi Hfail Hok results. subst results.
  split; [| split; [| split; [| split]]].
  - rewrite MultiCall_results. simpl. apply length_fmap.
  - intros j r. rewrite MultiCall_lookup.
    destruct (rawResults !! j) as [raw|] eqn:Hj; intros [= <-].
    rewrite has_failure_body. destruct (decide (j = i)) as [->|Hne].
    + split; [done |]. intros _. by apply Hfail.
    + split; [| done]. intros Hnz. destruct Hnz. by apply (Hok j).
  - destruct (lookup_lt_is_Some_2 rawResults i Hi) as [raw Hraw].
    exists (MultiCall_body raw). rewrite MultiCall_lookup, Hraw. split; [done |].
    rewrite MultiCall_body_failure by by apply Hfail. done.
  - intros j raw Hne Hj. rewrite MultiCall_lookup, Hj. simpl.
    f_equal. apply MultiCall_body_success. by apply (Hok j).
  - intros j x Hne Hj. rewrite MultiCall_lookup, Hj. reflexivity.
Qed.

Lemma MultiCall_order_preserving_witness :
  let rawResults := [Some (Arr [Str "OK"]);
                     Some (Obj [("code", Int 1); ("message", Str "Unauthorized")]);
                     Some (Arr [Arr [Str "2089b05ecca3d829"]])] in
  let results := (MultiCall rawResults None).1 in
  length results = length rawResults
  ∧ (∀ j r, results !! j = Some r → (has_failure r ↔ j = 1))
  ∧ (∃ r, results !! 1 = Some r ∧ Result r = None)
  ∧ (∀ j raw, j ≠ 1 → rawResults !! j = Some raw →
       results !! j = Some {| Result := Unmarshal_resultArray raw None;
                              Error := Some zeroMethodCallError |})
  ∧ (∀ j x, j ≠ 1 → rawResults !! j = Some (Some (Arr [x]) : RawMessage) →
       results !! j = Some {| Result := Some x; Error := Some zeroMethodCallError |}).
Proof.
  intros rawResults.
  apply (MultiCall_order_preserving rawResults None 1).
  - simpl. lia.
  - intros raw [= <-]. vm_compute. discriminate.
  - intros [|[|[|j]]] raw Hne; simpl; intros [= <-]; [reflexivity | done | reflexivity].
Defined.

(** C8: an element that is a failure descriptor (a JSON object) whose code
    and message decode to their defaults is taken down the success branch:
    its Batch Result is the one of a success, with an empty payload and
    the zero descriptor, and is not marked as a failure. *)
Theorem MultiCall_default_failure_is_success (rawResults : list RawMessage) (err : error)
  (i : nat) (members : list (string * value)) :
  rawResults !! i = Some (Some (Obj members) : RawMessage) →
  Code (Unmarshal_MethodCallError (Some (Obj members)) zeroMethodCallError) = 0%Z →
  Message (Unmarshal_MethodCallError (Some (Obj members)) zeroMethodCallError) = "" →
  ∃ r, (MultiCall rawResults err).1 !! i = Some r
       ∧ r = {| Result := Unmarshal_resultArray (Some (Obj members)) None;
                Error := Some zeroMethodCallError |}
       ∧ Result r = None
       ∧ ¬ has_failure r.
Proof.
  intros Hi Hcode Hmsg.
  assert (Unmarshal_MethodCallError (Some (Obj members)) zeroMethodCallError
          = zeroMethodCallError) as Hz.
  { destruct (Unmarshal_MethodCallError _ _) as [code msg]. simpl in *. by subst. }
  exists (MultiCall_body (Some (Obj members))).
  rewrite MultiCall_lookup, Hi. split; [done |].
  rewrite (MultiCall_body_success _ Hz). split; [done |]. split; [done |].
  intros (e & [= <-] & Hne). done.
Qed.

Lemma MultiCall_default_failure_is_success_witness :
  ∃ r, (MultiCall [Some (Obj [("code", Int 0); ("message", Str "")])] None).1 !! 0 = Some r
       ∧ r = {| Result := Unmarshal_resultArray
                            (Some (Obj [("code", Int 0); ("message", Str "")])) None;
                Error := Some zeroMethodCallError |}
       ∧ Result r = None
       ∧ ¬ has_failure r.
Proof.
  apply (MultiCall_default_failure_is_success
           [Some (Obj [("code", Int 0); ("message", Str "")])] None 0
           [("code", Int 0); ("message", Str "")]); reflexivity.
Defined.

(** ** AddMetalinkAtPosition *)

Lemma fold_left_snoc {A B : Type} (f : B → A) (l : list B) :
  ∀ acc : list A, fold_left (fun acc x => acc ++ [f x]) l acc = acc ++ (f <$> l).
Proof.
  induction l as [|x l IH]; intros acc; simpl.
  - by rewrite app_nil_r.
  - rewrite IH. by rewrite <- app_assoc.
Qed.

(** C10: for a successful reply of n strings, AddMetalinkAtPosition returns
    2n handles: n zero-value handles followed by the n reply strings
    wrapped in order. This is the list of the n new handles only when the
    reply is empty. *)
Theorem AddMetalinkAtPosition_doubles (c : positive) (reply : list string) :
  let gids := (AddMetalinkAtPosition c reply None).1 in
  let n := length reply in
  (AddMetalinkAtPosition c reply None).2 = None
  ∧ length gids = 2 * n
  ∧ take n gids = replicate n GID.zero
  ∧ drop n gids = (GetGID c <$> reply)
  ∧ (gids = (GetGID c <$> reply) ↔ reply = []).
Proof.
  intros gids n. subst gids n. unfold AddMetalinkAtPosition; simpl.
  rewrite fold_left_snoc.
  split; [done |]. split; [| split; [| split]].
  - rewrite length_app, length_replicate, length_fmap. lia.
  - rewrite take_app_length'; [done | by rewrite length_replicate].
  - rewrite drop_app_length'; [done | by rewrite length_replicate].
  - split.
    + intros Heq. apply (f_equal length) in Heq.
      rewrite length_app, length_replicate, length_fmap in Heq.
      destruct reply; [done | simpl in Heq; lia].
    + intros ->. done.
Qed.

(** ** The notification router *)

Section RouterProperties.

Context {Fn : Type}.
Implicit Types (st : State Fn) (event : DownloadEvent.t) (name gid : string).
Implicit Types (listener : EventListener Fn) (ls : list (EventListener Fn)).

Lemma fold_left_go event ls :
  ∀ st, fold_left (fun st listener => go (GoListener listener event) st) ls st
        = mkState (listeners st) (activeGIDs st) (chans st)
            (goroutines st ++ ((fun listener => GoListener listener event) <$> ls))
            (effects st).
Proof.
  induction ls as [|l ls IH]; intros [? ? ? ? ?]; simpl.
  - by rewrite app_nil_r.
  - rewrite IH. simpl. by rewrite <- app_assoc.
Qed.

(** [onEvent] starts one goroutine per entry of the table for [name], in
    the order of the table, and touches nothing else. *)
Lemma onEvent_spec name event st :
  onEvent name event st
  = mkState (listeners st) (activeGIDs st) (chans st)
      (goroutines st
       ++ ((fun listener => GoListener listener event) <$> default [] (listeners st !! name)))
      (effects st).
Proof.
  unfold onEvent. destruct (listeners st !! name) as [ls|]; simpl.
  - apply fold_left_go.
  - destruct st; simpl. by rewrite app_nil_r.
Qed.

Lemma onEvent_activeGIDs name event st : activeGIDs (onEvent name event st) = activeGIDs st.
Proof. by rewrite onEvent_spec. Qed.

Lemma onEvent_chans name event st : chans (onEvent name event st) = chans st.
Proof. by rewrite onEvent_spec. Qed.

Lemma onEvent_listeners name event st : listeners (onEvent name event st) = listeners st.
Proof. by rewrite onEvent_spec. Qed.

Lemma onEvent_effects name event st : effects (onEvent name event st) = effects st.
Proof. by rewrite onEvent_spec. Qed.

(** The first [Subscribe] for a name leaves the nil func in front of the
    listener. *)
Lemma Subscribe_first name listener st :
  listeners st !! name = None →
  listeners (Subscribe name listener st) !! name = Some [None; listener].
Proof.
  intros Hnone. unfold Subscribe. rewrite Hnone. simpl. by rewrite lookup_insert_eq.
Qed.

Lemma Subscribe_next name listener ls st :
  listeners st !! name = Some ls →
  listeners (Subscribe name listener st) !! name = Some (ls ++ [listener]).
Proof.
  intros Hsome. unfold Subscribe. rewrite Hsome. simpl. by rewrite lookup_insert_eq.
Qed.

Lemma Subscribe_other name name' listener st :
  name ≠ name' →
  listeners (Subscribe name listener st) !! name' = listeners st !! name'.
Proof.
  intros Hne. unfold Subscribe.
  destruct (listeners st !! name); simpl; by rewrite !lookup_insert_ne.
Qed.

(** After [Subscribe(name, l1)], ..., [Subscribe(name, ln)] on a client that
    had no table for [name], the table is the nil func followed by
    [l1..ln]. *)
Lemma Subscribe_all name ls :
  ∀ listener st,
    listeners st !! name = None →
    listeners (fold_left (fun st l => Subscribe name l st) ls (Subscribe name listener st))
      !! name = Some (None :: listener :: ls).
Proof.
  intros listener st Hnone.
  assert (∀ ls' st',
    listeners st' !! name = Some ls' →
    listeners (fold_left (fun st l => Subscribe name l st) ls st') !! name
    = Some (ls' ++ ls)) as Hgen.
  { clear. induction ls as [|l ls IH]; intros ls' st' Hst'; simpl.
    - by rewrite app_nil_r.
    - rewrite (IH (ls' ++ [l])); [by rewrite <- app_assoc |].
      by apply Subscribe_next. }
  rewrite (Hgen [None; listener]); [done |]. by apply Subscribe_first.
Qed.

(** Dispatch after those calls: the first goroutine started for the
    notification is the call of the nil func. *)
Lemma onEvent_after_Subscribe name event ls listener st :
  listeners st !! name = None →
  let st' := fold_left (fun st l => Subscribe name l st) ls (Subscribe name listener st) in
  goroutines (onEvent name event st')
  = goroutines st' ++ GoListener None event
      :: ((fun l => GoListener l event) <$> listener :: ls).
Proof.
  intros Hnone st'. rewrite onEvent_spec. simpl.
  pose proof (Subscribe_all name ls listener st Hnone) as Htable.
  unfold st', EventListener in *. by rewrite Htable.
Qed.

End RouterProperties.

(** C2, on the code: after [Subscribe("downloadComplete", l1)] and
    [Subscribe("downloadComplete", l2)] on a new client the table holds the
    nil func before [l1] and [l2], and one notification starts three
    goroutines, the first of which calls the nil func. *)
Theorem Subscribe_leaves_nil_listener :
  let event := DownloadEvent.mk "2089b05ecca3d829" in
  let st := Subscribe "downloadComplete" (Some "l2")
              (Subscribe "downloadComplete" (Some "l1") (@NewClient string)) in
  listeners st !! "downloadComplete" = Some [None; Some "l1"; Some "l2"]
  ∧ goroutines (onEvent "downloadComplete" event st)
    = [GoListener None event; GoListener (Some "l1") event; GoListener (Some "l2") event]
  ∧ (listener_call <$> goroutines (onEvent "downloadComplete" event st))
    = [Some NilFuncPanic; Some (Invoke "l1" event); Some (Invoke "l2" event)].
Proof.
  intros event st. subst event st. split; [| split]; vm_compute; reflexivity.
Qed.

(** ** The completion registry *)

Section RegistryProperties.

Context {Fn : Type}.
Implicit Types (st : State Fn) (event : DownloadEvent.t) (h : string) (ch : chan).

Lemma chan_send_empty ch (v : error) st :
  chans st !! ch = Some [] →
  chan_send ch v st = Some (set_chans (<[ch := [v]]>) st).
Proof. intros Hch. unfold chan_send. rewrite Hch. simpl. done. Qed.

Lemma chan_recv_one ch (v : error) st :
  chans st !! ch = Some [v] →
  chan_recv ch st = Some (v, set_chans (<[ch := []]>) st).
Proof. intros Hch. unfold chan_recv. by rewrite Hch. Qed.

Lemma chan_recv_empty ch st :
  chans st !! ch = Some [] → chan_recv ch st = None.
Proof. intros Hch. unfold chan_recv. by rewrite Hch. Qed.

(** A waiter whose channel is empty parks in its receive. *)
Lemma WaitForDownload_receive_parks h ch st :
  chans st !! ch = Some [] → WaitForDownload_receive h ch st = Parks st.
Proof. intros Hch. unfold WaitForDownload_receive. by rewrite chan_recv_empty. Qed.

(** What a waiter finds in the table after it registered. *)
Lemma WaitForDownload_register_spec h st :
  (∀ ch, activeGIDs st !! h = Some ch → chans st !! ch = Some []) →
  let ch := (WaitForDownload_register h st).1 in
  let st1 := (WaitForDownload_register h st).2 in
  activeGIDs st1 !! h = Some ch ∧ chans st1 !! ch = Some [].
Proof.
  intros Hempty. unfold WaitForDownload_register.
  destruct (activeGIDs st !! h) as [ch0|] eqn:Hh; simpl.
  - split; [done | by apply Hempty].
  - split; by rewrite lookup_insert_eq.
Qed.

(** With no outcome pending for [h], [WaitForDownload(h)] parks, its entry
    in the table. *)
Lemma WaitForDownload_parks h st :
  (∀ ch, activeGIDs st !! h = Some ch → chans st !! ch = Some []) →
  WaitForDownload h st = Parks (WaitForDownload_register h st).2
  ∧ is_Some (activeGIDs (WaitForDownload_register h st).2 !! h).
Proof.
  intros Hempty.
  destruct (WaitForDownload_register_spec h st Hempty) as [Hentry Hbuf].
  unfold WaitForDownload.
  destruct (WaitForDownload_register h st) as [ch st1]; simpl in *.
  split; [by apply WaitForDownload_receive_parks | by eexists].
Qed.

(** The terminal notifications reach the three handlers below. *)
Lemma handle_terminal :
  @handle Fn "aria2.onDownloadStop" = Some onDownloadStop
  ∧ @handle Fn "aria2.onDownloadComplete" = Some onDownloadComplete
  ∧ @handle Fn "aria2.onDownloadError" = Some onDownloadError.
Proof. repeat split. Qed.

(** A signal sent to a parked waiter is the one the waiter returns with,
    and the waiter takes its entry out of the table. *)
Lemma signal_round_trip h ch (v : error) st :
  chans st !! ch = Some [] →
  ∃ st', chan_send ch v st = Some st'
         ∧ WaitForDownload_receive h ch st'
           = Returns v (set_activeGIDs (delete h) (set_chans (<[ch := []]>) st'))
         ∧ activeGIDs (set_activeGIDs (delete h) (set_chans (<[ch := []]>) st')) !! h = None.
Proof.
  intros Hch. eexists. split; [by apply chan_send_empty |]. split.
  - unfold WaitForDownload_receive.
    rewrite (chan_recv_one ch v); [done |]. simpl. by rewrite lookup_insert_eq.
  - simpl. apply lookup_delete_eq.
Qed.

(** C3: a waiter calls WaitForDownload(h) while no outcome is pending for
    [h]; it parks. Then the downloadComplete notification for [h] is
    handled; the handler returns, the waiter's receive yields the nil
    error, and afterwards activeGIDs holds no entry for [h]. *)
Theorem WaitForDownload_completed h st :
  (∀ ch, activeGIDs st !! h = Some ch → chans st !! ch = Some []) →
  let ch := (WaitForDownload_register h st).1 in
  let st1 := (WaitForDownload_register h st).2 in
  WaitForDownload_receive h ch st1 = Parks st1
  ∧ ∃ st2 st3,
      onDownloadComplete (DownloadEvent.mk h) st1 = Returns None st2
      ∧ WaitForDownload_receive h ch st2 = Returns None st3
      ∧ activeGIDs st3 !! h = None.
Proof.
  intros Hempty ch st1.
  destruct (WaitForDownload_register_spec h st Hempty) as [Hentry Hbuf].
  fold ch st1 in Hentry, Hbuf.
  split; [by apply WaitForDownload_receive_parks |].
  unfold onDownloadComplete. simpl.
  rewrite onEvent_activeGIDs, Hentry.
  destruct (signal_round_trip h ch None (onEvent "downloadComplete" (DownloadEvent.mk h) st1))
    as (st2 & Hsend & Hrecv & Hgone).
  { by rewrite onEvent_chans. }
  rewrite Hsend. eauto.
Qed.

(** C4: with a waiter parked on the entry of [h], the downloadStop
    notification makes the waiter return a non-nil error, the
    downloadError notification a non-nil error too, and the two errors
    differ. *)
Theorem stopped_and_errored_differ h ch st :
  activeGIDs st !! h = Some ch →
  chans st !! ch = Some [] →
  ∃ st_stop st_stop' st_err st_err' (e_stop e_err : error),
    onDownloadStop (DownloadEvent.mk h) st = Returns None st_stop
    ∧ WaitForDownload_receive h ch st_stop = Returns e_stop st_stop'
    ∧ onDownloadError (DownloadEvent.mk h) st = Returns None st_err
    ∧ WaitForDownload_receive h ch st_err = Returns e_err st_err'
    ∧ e_stop = errors_New "download stopped"
    ∧ e_err = errors_New "download encountered error"
    ∧ e_stop ≠ None ∧ e_err ≠ None ∧ e_stop ≠ e_err.
Proof.
  intros Hentry Hbuf.
  destruct (signal_round_trip h ch (errors_New "download stopped")
              (onEvent "downloadStop" (DownloadEvent.mk h) st))
    as (st_stop & Hsend_s & Hrecv_s & _); [by rewrite onEvent_chans |].
  destruct (signal_round_trip h ch (errors_New "download encountered error")
              (onEvent "downloadError" (DownloadEvent.mk h) st))
    as (st_err & Hsend_e & Hrecv_e & _); [by rewrite onEvent_chans |].
  exists st_stop, (set_activeGIDs (delete h) (set_chans (<[ch := []]>) st_stop)).
  exists st_err, (set_activeGIDs (delete h) (set_chans (<[ch := []]>) st_err)).
  exists (errors_New "download stopped"), (errors_New "download encountered error").
  unfold onDownloadStop, onDownloadError. simpl.
  rewrite !onEvent_activeGIDs, Hentry, Hsend_s, Hsend_e.
  repeat split; try done.
Qed.

(** X24: when activeGIDs has no entry for the handle of the event, each of
    the three terminal handlers returns (with a nil error) and leaves
    activeGIDs and every channel as they were. The goroutines the handler
    starts for the listeners are not spoken of here. *)
Theorem terminal_notification_without_waiter event st :
  activeGIDs st !! DownloadEvent.GID event = None →
  (∃ st', onDownloadStop event st = Returns None st'
          ∧ activeGIDs st' = activeGIDs st ∧ chans st' = chans st)
  ∧ (∃ st', onDownloadComplete event st = Returns None st'
            ∧ activeGIDs st' = activeGIDs st ∧ chans st' = chans st)
  ∧ (∃ st', onDownloadError event st = Returns None st'
            ∧ activeGIDs st' = activeGIDs st ∧ chans st' = chans st).
Proof.
  intros Hnone.
  unfold onDownloadStop, onDownloadComplete, onDownloadError.
  rewrite !onEvent_activeGIDs, Hnone.
  repeat split; eexists; (split; [reflexivity |]);
    by rewrite onEvent_activeGIDs, onEvent_chans.
Qed.

(** Any terminal handler run on a table that holds the nil func starts a
    goroutine calling it, waiter or not. *)
Lemma terminal_handlers_start_nil_listener event ls st :
  None ∈ ls →
  (listeners st !! "downloadStop" = Some ls →
   GoListener None event ∈ goroutines (Run_state (onDownloadStop event st)))
  ∧ (listeners st !! "downloadComplete" = Some ls →
     GoListener None event ∈ goroutines (Run_state (onDownloadComplete event st)))
  ∧ (listeners st !! "downloadError" = Some ls →
     GoListener None event ∈ goroutines (Run_state (onDownloadError event st))).
Proof.
  intros Hnil.
  assert (∀ name (v : error),
    listeners st !! name = Some ls →
    GoListener None event
    ∈ goroutines
        (Run_state
           (let st := onEvent name event st in
            match activeGIDs st !! DownloadEvent.GID event with
            | Some channel =>
                match chan_send channel v st with
                | Some st => Returns (None : error) st
                | None => Parks st
                end
            | None => Returns None st
            end))) as Hgen.
  { intros name v Htable. cbv zeta.
    assert (GoListener None event ∈ goroutines (onEvent name event st)) as Hin.
    { rewrite onEvent_spec. simpl. unfold EventListener in *. rewrite Htable. simpl.
      apply elem_of_app. right.
      apply (list_elem_of_fmap_2 (fun listener => GoListener listener event)) in Hnil.
      exact Hnil. }
    destruct (activeGIDs _ !! _) as [channel|]; simpl; [| done].
    unfold chan_send. destruct (chans _ !! channel) as [buf|]; simpl; [| done].
    destruct (decide _); simpl; done. }
  repeat split; intros Htable; by apply Hgen.
Qed.

End RegistryProperties.

(** C9, on the code: on a new client with one listener subscribed to each
    terminal kind, a terminal notification for a handle nobody waits for
    leaves activeGIDs and the channels as they were and the handler
    returns nil, but the handler has started, before the listener, a
    goroutine that calls the nil func [Subscribe] left in the table, and
    that call panics. *)
Theorem terminal_notification_calls_nil_listener :
  let event := DownloadEvent.mk "2089b05ecca3d829" in
  let st := Subscribe "downloadError" (Some "l3")
              (Subscribe "downloadComplete" (Some "l2")
                 (Subscribe "downloadStop" (Some "l1") (@NewClient string))) in
  activeGIDs st !! DownloadEvent.GID event = None
  ∧ (∃ st', onDownloadStop event st = Returns None st'
            ∧ activeGIDs st' = activeGIDs st ∧ chans st' = chans st
            ∧ (listener_call <$> goroutines st')
              = [Some NilFuncPanic; Some (Invoke "l1" event)])
  ∧ (∃ st', onDownloadComplete event st = Returns None st'
            ∧ activeGIDs st' = activeGIDs st ∧ chans st' = chans st
            ∧ (listener_call <$> goroutines st')
              = [Some NilFuncPanic; Some (Invoke "l2" event)])
  ∧ (∃ st', onDownloadError event st = Returns None st'
            ∧ activeGIDs st' = activeGIDs st ∧ chans st' = chans st
            ∧ (listener_call <$> goroutines st')
              = [Some NilFuncPanic; Some (Invoke "l3" event)]).
Proof.
  intros event st. subst event st.
  split; [vm_compute; reflexivity |].
  repeat split; eexists; (split; [vm_compute; reflexivity |]);
    repeat split; vm_compute; reflexivity.
Qed.

(** ** The download orchestrator *)

Section OrchestratorProperties.

Context {Fn Status Options : Type}.
Variable zeroStatus : Status.
Variable aria2 : Remote Status Options.
Variable c : positive.
Implicit Types (st : State Fn) (uris : list string) (options : option Options).
Implicit Types (meanwhile : State Fn → State Fn) (gid : GID.t) (downloadDone : chan).

(** [Delete] starts with the aria2.remove call and never asks for the
    status. *)
Lemma Delete_effects (h : string) st :
  ∃ rest,
    effects (Delete aria2 h st).2 = effects st ++ RpcCall "aria2.remove" [h] :: rest
    ∧ Forall (fun e => ∀ args, e ≠ RpcCall "aria2.tellStatus" args) rest.
Proof.
  unfold Delete, Remove, GetFiles. simpl.
  destruct (reply_remove aria2 h); simpl; [by exists [] |].
  destruct (reply_getFiles aria2 h) as [files [e|]]; simpl.
  - exists [RpcCall "aria2.getFiles" [h]]. rewrite <- app_assoc. split; [done |].
    by repeat constructor.
  - assert (∀ (fs : list File) st0,
      effects (fold_left (fun st file => perform (OsRemove (Path file)) st) fs st0)
      = effects st0 ++ ((fun file => OsRemove (Path file)) <$> fs)) as Hfold.
    { clear. induction fs as [|f fs IH]; intros st0; simpl.
      - by rewrite app_nil_r.
      - rewrite IH. simpl. by rewrite <- app_assoc. }
    rewrite Hfold. simpl.
    exists (RpcCall "aria2.getFiles" [h] :: ((fun file => OsRemove (Path file)) <$> files)).
    rewrite <- !app_assoc. split; [done |].
    constructor; [done |]. apply Forall_fmap, Forall_forall. done.
Qed.

(** The first part of [DownloadWithContext] when the submission goes
    through: the handle is the reply wrapped by [GetGID], [downloadDone]
    is a new, empty channel, and one goroutine has been started. *)
Lemma DownloadWithContext_submit_ok uris options st :
  (reply_addUri aria2 uris options None).2 = None →
  let gid := GetGID c (reply_addUri aria2 uris options None).1 in
  let st0 := perform (RpcCall "aria2.addUri" uris) st in
  let downloadDone := fresh (dom (chans st0)) in
  DownloadWithContext_submit zeroStatus aria2 c uris options st
  = AtSelect gid downloadDone
      (go (GoWait gid downloadDone) (set_chans (<[downloadDone := []]>) st0)).
Proof.
  intros Hok. unfold DownloadWithContext_submit, AddUri, AddUriAtPosition.
  destruct (reply_addUri aria2 uris options None) as [reply err]. simpl in *.
  by subst err.
Qed.

(** C6: when the submission fails, DownloadWithContext returns the
    submission error with the zero status; all it has done is the
    aria2.addUri call: no goroutine is started, no aria2.tellStatus call
    is made, and activeGIDs and the channels are as before. *)
Theorem DownloadWithContext_submission_failure meanwhile (ctx_done : bool) (pick : nat)
  uris options st (msg : string) :
  (reply_addUri aria2 uris options None).2 = Some msg →
  ∃ st',
    DownloadWithContext zeroStatus aria2 c meanwhile ctx_done pick uris options st
    = Returns (zeroStatus, Some msg) st'
    ∧ effects st' = effects st ++ [RpcCall "aria2.addUri" uris]
    ∧ goroutines st' = goroutines st
    ∧ activeGIDs st' = activeGIDs st
    ∧ chans st' = chans st
    ∧ listeners st' = listeners st.
Proof.
  intros Hfail. exists (perform (RpcCall "aria2.addUri" uris) st).
  unfold DownloadWithContext, DownloadWithContext_submit, AddUri, AddUriAtPosition.
  destruct (reply_addUri aria2 uris options None) as [reply err]. simpl in *.
  subst err. done.
Qed.

(** Until a terminal notification for the handle is handled, [downloadDone]
    stays empty: it is empty when the [select] is reached, and the
    goroutine started for the wait parks in [WaitForDownload] without
    writing to it (no outcome being pending for the handle). *)
Lemma not_done_before_terminal uris options st :
  (reply_addUri aria2 uris options None).2 = None →
  (∀ ch, activeGIDs st !! (reply_addUri aria2 uris options None).1 = Some ch →
         chans st !! ch = Some []) →
  ∀ gid downloadDone st1,
    DownloadWithContext_submit zeroStatus aria2 c uris options st
    = AtSelect gid downloadDone st1 →
    ¬ done_pending downloadDone st1
    ∧ GoWait_run gid downloadDone st1 = Parks (run_wait_goroutine st1)
    ∧ ¬ done_pending downloadDone (run_wait_goroutine st1).
Proof.
  intros Hok Hempty gid downloadDone st1.
  rewrite (DownloadWithContext_submit_ok uris options st Hok). simpl.
  intros [= <- <- <-].
  set (h := (reply_addUri aria2 uris options None).1) in *.
  set (dd := fresh (dom (chans st))).
  assert (chans st !! dd = None) as Hdd.
  { apply not_elem_of_dom. apply is_fresh. }
  split.
  { intros (v & buf & Hv). simpl in Hv. rewrite lookup_insert_eq in Hv. done. }
  unfold run_wait_goroutine. simpl. rewrite last_snoc.
  unfold GoWait_run, GID_WaitForDownload_register, WaitForDownload_register,
    GoWait_receive, GID_WaitForDownload_receive, WaitForDownload_receive, chan_recv.
  simpl. fold h.
  destruct (activeGIDs st !! h) as [ch|] eqn:Hh; simpl.
  - assert (dd ≠ ch) as Hne.
    { intros ->. rewrite (Hempty ch) in Hdd; done. }
    rewrite lookup_insert_ne by done. rewrite (Hempty ch) by done. simpl.
    split; [done |].
    intros (v & buf & Hv). simpl in Hv. rewrite lookup_insert_eq in Hv. done.
  - rewrite lookup_insert_eq. simpl. split; [done |].
    intros (v & buf & Hv). simpl in Hv.
    rewrite lookup_insert_ne in Hv.
    + rewrite lookup_insert_eq in Hv. done.
    + intros Heq.
      pose proof (is_fresh (dom (<[dd := ([] : list error)]> (chans st)))) as Hfresh.
      rewrite Heq in Hfresh. apply Hfresh.
      apply elem_of_dom. rewrite lookup_insert_eq. by eexists.
Qed.

(** C5: the submission went through and, when the [select] is decided, the
    context is cancelled while [downloadDone] holds nothing (no terminal
    notification has ended the wait). Then DownloadWithContext returns the
    zero status with the error "download cancelled", after calling
    aria2.remove for the handle and without asking for the status;
    whatever [Delete] returns is dropped. *)
Theorem DownloadWithContext_cancelled meanwhile (pick : nat) uris options st :
  (reply_addUri aria2 uris options None).2 = None →
  (∀ gid downloadDone st1,
     DownloadWithContext_submit zeroStatus aria2 c uris options st
     = AtSelect gid downloadDone st1 →
     ¬ done_pending downloadDone (meanwhile st1)) →
  ∃ gid downloadDone st1 st' rest,
    DownloadWithContext_submit zeroStatus aria2 c uris options st
    = AtSelect gid downloadDone st1
    ∧ DownloadWithContext zeroStatus aria2 c meanwhile true pick uris options st
      = Returns (zeroStatus, errors_New "download cancelled") st'
    ∧ st' = (GID_Delete aria2 gid (meanwhile st1)).2
    ∧ effects st' = effects (meanwhile st1) ++ RpcCall "aria2.remove" [GID.GID gid] :: rest
    ∧ Forall (fun e => ∀ args, e ≠ RpcCall "aria2.tellStatus" args) rest.
Proof.
  intros Hok Hquiet.
  pose proof (DownloadWithContext_submit_ok uris options st Hok) as Hsub. simpl in Hsub.
  specialize (Hquiet _ _ _ Hsub).
  match type of Hsub with
  | _ = AtSelect ?g ?d ?s1 =>
      destruct (Delete_effects (GID.GID g) (meanwhile s1)) as (rest & Hrest & Hnostatus);
      exists g, d, s1, (GID_Delete aria2 g (meanwhile s1)).2, rest
  end.
  split; [exact Hsub |].
  unfold DownloadWithContext. rewrite Hsub.
  unfold DownloadWithContext_select, ready_cases.
  match goal with
  | |- context [chans ?s !! ?d] => destruct (chans s !! d) as [[|v buf]|] eqn:Hdd
  end; simpl.
  2: { destruct Hquiet. by exists v, buf. }
  all: split; [by destruct (GID_Delete _ _ _) | split; [reflexivity | by split]].
Qed.

End OrchestratorProperties.

(** ** The properties at concrete clients *)

Lemma WaitForDownload_completed_witness :
  let h := "2089b05ecca3d829" in
  let st := Subscribe "downloadStart" (Some "l1") (@NewClient string) in
  let ch := (WaitForDownload_register h st).1 in
  let st1 := (WaitForDownload_register h st).2 in
  WaitForDownload_receive h ch st1 = Parks st1
  ∧ ∃ st2 st3,
      onDownloadComplete (DownloadEvent.mk h) st1 = Returns None st2
      ∧ WaitForDownload_receive h ch st2 = Returns None st3
      ∧ activeGIDs st3 !! h = None.
Proof.
  intros h st.
  apply (WaitForDownload_completed h st).
  intros ch Hch. vm_compute in Hch. discriminate Hch.
Defined.

Lemma stopped_and_errored_differ_witness :
  let h := "2089b05ecca3d829" in
  let ch := (WaitForDownload_register h (@NewClient string)).1 in
  let st := (WaitForDownload_register h (@NewClient string)).2 in
  ∃ st_stop st_stop' st_err st_err' (e_stop e_err : error),
    onDownloadStop (DownloadEvent.mk h) st = Returns None st_stop
    ∧ WaitForDownload_receive h ch st_stop = Returns e_stop st_stop'
    ∧ onDownloadError (DownloadEvent.mk h) st = Returns None st_err
    ∧ WaitForDownload_receive h ch st_err = Returns e_err st_err'
    ∧ e_stop = errors_New "download stopped"
    ∧ e_err = errors_New "download encountered error"
    ∧ e_stop ≠ None ∧ e_err ≠ None ∧ e_stop ≠ e_err.
Proof.
  intros h ch st.
  apply (stopped_and_errored_differ h ch st); vm_compute; reflexivity.
Defined.

Lemma terminal_notification_without_waiter_witness :
  let event := DownloadEvent.mk "2089b05ecca3d829" in
  let st := (WaitForDownload_register "0123456789abcdef" (@NewClient string)).2 in
  (∃ st', onDownloadStop event st = Returns None st'
          ∧ activeGIDs st' = activeGIDs st ∧ chans st' = chans st)
  ∧ (∃ st', onDownloadComplete event st = Returns None st'
            ∧ activeGIDs st' = activeGIDs st ∧ chans st' = chans st)
  ∧ (∃ st', onDownloadError event st = Returns None st'
            ∧ activeGIDs st' = activeGIDs st ∧ chans st' = chans st).
Proof.
  intros event st.
  apply (terminal_notification_without_waiter event st).
  vm_compute. reflexivity.
Defined.

Lemma DownloadWithContext_cancelled_witness :
  let uris := ["http://example.org/file"] in
  ∃ gid downloadDone st1 st' rest,
    DownloadWithContext_submit "" stubborn_server 1%positive uris None (@NewClient string)
    = AtSelect gid downloadDone st1
    ∧ DownloadWithContext "" stubborn_server 1%positive run_wait_goroutine true 0 uris None
        (@NewClient string)
      = Returns ("", errors_New "download cancelled") st'
    ∧ st' = (GID_Delete stubborn_server gid (run_wait_goroutine st1)).2
    ∧ effects st' = effects (run_wait_goroutine st1) ++ RpcCall "aria2.remove" [GID.GID gid] :: rest
    ∧ Forall (fun e => ∀ args, e ≠ RpcCall "aria2.tellStatus" args) rest.
Proof.
  intros uris.
  apply (DownloadWithContext_cancelled "" stubborn_server 1%positive run_wait_goroutine 0
           uris None (@NewClient string)).
  - reflexivity.
  - intros gid downloadDone st1 Hsub. vm_compute in Hsub.
    injection Hsub as <- <- <-.
    intros (v & buf & Hv). vm_compute in Hv. discriminate Hv.
Defined.

Lemma DownloadWithContext_submission_failure_witness :
  let uris := @nil string in
  ∃ st',
    DownloadWithContext "" refusing_server 1%positive run_wait_goroutine true 0 uris None
      (@NewClient string)
    = Returns ("", Some "No URI to download.") st'
    ∧ effects st' = effects (@NewClient string) ++ [RpcCall "aria2.addUri" uris]
    ∧ goroutines st' = goroutines (@NewClient string)
    ∧ activeGIDs st' = activeGIDs (@NewClient string)
    ∧ chans st' = chans (@NewClient string)
    ∧ listeners st' = listeners (@NewClient string).
Proof.
  intros uris.
  apply (DownloadWithContext_submission_failure "" refusing_server 1%positive
           run_wait_goroutine true 0 uris None (@NewClient string) "No URI to download.").
  reflexivity.
Defined.

(** * Further properties *)

(** ** The decoder and the plain calls *)

(** X1: MultiCall returns one result per element of the reply, whatever the
    elements are, and hands the error of the call through; a reply with no
    element gives no result. *)
Theorem MultiCall_length_and_error (rawResults : list RawMessage) (err : error) :
  length (MultiCall rawResults err).1 = length rawResults
  ∧ (MultiCall rawResults err).2 = err
  ∧ ((MultiCall rawResults err).1 = [] ↔ rawResults = []).
Proof.
  rewrite MultiCall_results. simpl. split; [apply length_fmap |]. split; [done |].
  split.
  - by intros ?%fmap_nil_inv.
  - by intros ->.
Qed.

(** X2: the [Error] pointer of a result is never nil; when the result has a
    payload it points to the zero descriptor. *)
Theorem MultiCall_Error_on_success (rawResults : list RawMessage) (err : error) (i : nat)
  (r : MethodResult) :
  (MultiCall rawResults err).1 !! i = Some r →
  Error r ≠ None ∧ (Result r ≠ None → Error r = Some zeroMethodCallError).
Proof.
  rewrite MultiCall_lookup. destruct (rawResults !! i) as [raw|]; intros [= <-].
  split; [done |]. intros Hp. apply has_payload_body in Hp as [Hz _].
  unfold MultiCall_body. simpl. by rewrite Hz.
Qed.

(** X3: a result has a payload exactly when its element is a non-empty
    array; the payload is the first member, and further members are
    dropped. *)
Theorem MultiCall_payload_is_first_member (rawResults : list RawMessage) (err : error)
  (i : nat) (r : MethodResult) (x : value) :
  (MultiCall rawResults err).1 !! i = Some r →
  (Result r = Some x ↔ ∃ rest, rawResults !! i = Some (Some (Arr (x :: rest)) : RawMessage)).
Proof.
  rewrite MultiCall_lookup. destruct (rawResults !! i) as [raw|] eqn:Hraw; intros [= <-].
  unfold MultiCall_body. simpl. split.
  - destruct (decide _) as [Hz|Hnz]; [| done].
    destruct raw as [[| | | | |[|y rest]|]|]; simpl; try done.
    intros [= ->]. by exists rest.
  - intros (rest & [= ->]). done.
Qed.

(** X4: only a JSON object can be a failure: an element that is an array, a
    string, a number, a boolean, null or no text at all is never marked as
    one. *)
Theorem MultiCall_failure_is_object (rawResults : list RawMessage) (err : error)
  (i : nat) (r : MethodResult) :
  (MultiCall rawResults err).1 !! i = Some r →
  has_failure r →
  ∃ members, rawResults !! i = Some (Some (Obj members) : RawMessage).
Proof.
  rewrite MultiCall_lookup. destruct (rawResults !! i) as [raw|] eqn:Hraw; intros [= <-].
  rewrite has_failure_body.
  destruct raw as [[| | | | | |members]|]; simpl; try done.
  intros _. by exists members.
Qed.

(** X5: ChangeURIAt returns exactly when the reply holds at least two
    numbers, and then returns the first two with the error of the call; on
    a shorter reply, such as the empty one a failed call leaves, it panics
    and the error is not returned. *)
Theorem ChangeURIAt_needs_two (reply : list N) (err : error) :
  ((∃ r, ChangeURIAt reply err = Ok r) ↔ (2 ≤ length reply)%nat)
  ∧ (∀ deleted added rest,
       reply = deleted :: added :: rest → ChangeURIAt reply err = Ok (deleted, added, err))
  ∧ (length reply < 2 → ∃ msg, ChangeURIAt reply err = Panic msg).
Proof.
  unfold ChangeURIAt. destruct reply as [|a [|b rest]]; simpl.
  - split; [split; [intros [? ?]; done | lia] |]. split; [done | eauto].
  - split; [split; [intros [? ?]; done | lia] |]. split; [done | eauto].
  - split; [split; [lia | eauto] |]. split; [| lia].
    intros ? ? ? [= <- <- <-]. done.
Qed.

(** X6: Close reports the first failure: the error of the rpc client if it
    has one, else the error of the websocket; it returns nil only when
    both closed cleanly, and leaves the client marked closed in any case. *)
Theorem Close_first_error (rpcErr wsErr : error) :
  (Close rpcErr wsErr).1 = true
  ∧ ((Close rpcErr wsErr).2 = None ↔ rpcErr = None ∧ wsErr = None)
  ∧ (rpcErr ≠ None → (Close rpcErr wsErr).2 = rpcErr)
  ∧ (rpcErr = None → (Close rpcErr wsErr).2 = wsErr).
Proof.
  unfold Close. destruct rpcErr, wsErr; simpl; repeat split; try done;
    intros [? ?]; done.
Qed.

(** ** Router and registry *)

Section MoreRouterProperties.

Context {Fn : Type}.
Implicit Types (st : State Fn) (event : DownloadEvent.t) (name h : string) (ch : chan).
Implicit Types (listener : EventListener Fn) (ls : list (EventListener Fn)).

(** X7: a notification starts one goroutine per entry of the table of its
    name, in table order and all on the same event, after the goroutines
    already started; with no table for the name it changes nothing. The
    tables, the channels and the effects are never touched. *)
Theorem onEvent_one_goroutine_per_entry name event st :
  goroutines (onEvent name event st)
  = goroutines st
    ++ ((fun listener => GoListener listener event) <$> default [] (listeners st !! name))
  ∧ listeners (onEvent name event st) = listeners st
  ∧ activeGIDs (onEvent name event st) = activeGIDs st
  ∧ chans (onEvent name event st) = chans st
  ∧ effects (onEvent name event st) = effects st
  ∧ (listeners st !! name = None → onEvent name event st = st).
Proof.
  rewrite onEvent_spec. simpl. repeat split; try done.
  intros ->. simpl. rewrite app_nil_r. by destruct st.
Qed.

(** X8: Subscribe puts the listener at the end of the table of its name and
    touches nothing else: the tables of the other names, the waiter table,
    the channels, the goroutines and the effects are as before. *)
Theorem Subscribe_frame name listener st :
  (∃ ls, listeners (Subscribe name listener st) !! name = Some (ls ++ [listener]))
  ∧ (∀ name', name ≠ name' →
       listeners (Subscribe name listener st) !! name' = listeners st !! name')
  ∧ activeGIDs (Subscribe name listener st) = activeGIDs st
  ∧ chans (Subscribe name listener st) = chans st
  ∧ goroutines (Subscribe name listener st) = goroutines st
  ∧ effects (Subscribe name listener st) = effects st.
Proof.
  split; [| split; [by intros; apply Subscribe_other |]].
  - destruct (listeners st !! name) as [ls|] eqn:Hl.
    + exists ls. by apply Subscribe_next.
    + exists [None]. by apply Subscribe_first.
  - unfold Subscribe. by destruct (listeners st !! name).
Qed.

Lemma fold_left_Subscribe_table name ls :
  ∀ st ls0,
    listeners st !! name = Some ls0 →
    listeners (fold_left (fun st l => Subscribe name l st) ls st) !! name = Some (ls0 ++ ls).
Proof.
  induction ls as [|l ls IH]; intros st ls0 Hst; simpl.
  - by rewrite app_nil_r.
  - rewrite (IH _ (ls0 ++ [l])); [by rewrite <- app_assoc |]. by apply Subscribe_next.
Qed.

Lemma fold_left_Subscribe_goroutines name ls :
  ∀ st, goroutines (fold_left (fun st l => Subscribe name l st) ls st) = goroutines st.
Proof.
  induction ls as [|l ls IH]; intros st; simpl; [done |].
  rewrite IH. unfold Subscribe. by destruct (listeners st !! name).
Qed.

(** X9: after one or more calls of Subscribe for a name, its table is the
    table it had before (a single nil func if it had none) followed by the
    listeners in the order of the calls, and a notification of that name
    starts one goroutine for each of these entries. *)
Theorem Subscribe_many name event ls st :
  ls ≠ [] →
  let st' := fold_left (fun st l => Subscribe name l st) ls st in
  let table := default [None] (listeners st !! name) ++ ls in
  listeners st' !! name = Some table
  ∧ goroutines (onEvent name event st')
    = goroutines st ++ ((fun listener => GoListener listener event) <$> table).
Proof.
  intros Hne st' table.
  assert (listeners st' !! name = Some table) as Htable.
  { subst st' table. destruct ls as [|l ls]; [done |]. simpl.
    destruct (listeners st !! name) as [ls0|] eqn:Hl; simpl.
    - rewrite (fold_left_Subscribe_table name ls _ (ls0 ++ [l])).
      + by rewrite <- app_assoc.
      + by apply Subscribe_next.
    - rewrite (fold_left_Subscribe_table name ls _ [None; l]); [done |].
      by apply Subscribe_first. }
  split; [exact Htable |].
  rewrite onEvent_spec. simpl. unfold EventListener in *. rewrite Htable. simpl.
  subst st'. by rewrite fold_left_Subscribe_goroutines.
Qed.

(** X10: the handlers of the three non-terminal notifications return nil and
    never touch the completion registry, whoever is waiting. *)
Theorem nonterminal_handlers_leave_registry event st :
  (∃ st', onDownloadStart event st = Returns None st'
          ∧ activeGIDs st' = activeGIDs st ∧ chans st' = chans st)
  ∧ (∃ st', onDownloadPause event st = Returns None st'
            ∧ activeGIDs st' = activeGIDs st ∧ chans st' = chans st)
  ∧ (∃ st', onBtDownloadComplete event st = Returns None st'
            ∧ activeGIDs st' = activeGIDs st ∧ chans st' = chans st).
Proof.
  repeat split; eexists; (split; [reflexivity |]);
    by rewrite onEvent_activeGIDs, onEvent_chans.
Qed.

(** X11: when the channel of the handle already holds an outcome, a further
    terminal notification for the handle is not dropped: the handler
    parks in its send and does not return; the registry is unchanged. *)
Theorem terminal_notification_on_full_channel event ch (v : error) (buf : list error) st :
  activeGIDs st !! DownloadEvent.GID event = Some ch →
  chans st !! ch = Some (v :: buf) →
  (∃ st', onDownloadStop event st = Parks st'
          ∧ activeGIDs st' = activeGIDs st ∧ chans st' = chans st)
  ∧ (∃ st', onDownloadComplete event st = Parks st'
            ∧ activeGIDs st' = activeGIDs st ∧ chans st' = chans st)
  ∧ (∃ st', onDownloadError event st = Parks st'
            ∧ activeGIDs st' = activeGIDs st ∧ chans st' = chans st).
Proof.
  intros Hentry Hbuf.
  unfold onDownloadStop, onDownloadComplete, onDownloadError, chan_send.
  rewrite !onEvent_activeGIDs, !onEvent_chans, Hentry, Hbuf. simpl.
  repeat split; eexists; (split; [reflexivity |]);
    by rewrite onEvent_activeGIDs, onEvent_chans.
Qed.

Lemma WaitForDownload_fresh_parks h st :
  activeGIDs st !! h = None →
  ∃ st', WaitForDownload h st = Parks st' ∧ is_Some (activeGIDs st' !! h).
Proof.
  intros Hnone.
  destruct (WaitForDownload_parks h st) as [Hp Hs].
  { intros ch Hch. by rewrite Hnone in Hch. }
  eauto.
Qed.

(** X12: a terminal notification handled before anyone waits is lost: the
    handler returns, and a WaitForDownload for the handle called after it
    parks, with a new entry in the table. *)
Theorem notification_before_wait_is_lost h st :
  activeGIDs st !! h = None →
  (∃ st1 st2, onDownloadStop (DownloadEvent.mk h) st = Returns None st1
              ∧ WaitForDownload h st1 = Parks st2 ∧ is_Some (activeGIDs st2 !! h))
  ∧ (∃ st1 st2, onDownloadComplete (DownloadEvent.mk h) st = Returns None st1
                ∧ WaitForDownload h st1 = Parks st2 ∧ is_Some (activeGIDs st2 !! h))
  ∧ (∃ st1 st2, onDownloadError (DownloadEvent.mk h) st = Returns None st1
                ∧ WaitForDownload h st1 = Parks st2 ∧ is_Some (activeGIDs st2 !! h)).
Proof.
  intros Hnone.
  unfold onDownloadStop, onDownloadComplete, onDownloadError. simpl.
  rewrite !onEvent_activeGIDs, Hnone.
  repeat split.
  - destruct (WaitForDownload_fresh_parks h (onEvent "downloadStop" (DownloadEvent.mk h) st))
      as (st2 & ? & ?); [by rewrite onEvent_activeGIDs | eauto].
  - destruct (WaitForDownload_fresh_parks h (onEvent "downloadComplete" (DownloadEvent.mk h) st))
      as (st2 & ? & ?); [by rewrite onEvent_activeGIDs | eauto].
  - destruct (WaitForDownload_fresh_parks h (onEvent "downloadError" (DownloadEvent.mk h) st))
      as (st2 & ? & ?); [by rewrite onEvent_activeGIDs | eauto].
Qed.

(** X13: a second WaitForDownload for a handle whose first waiter is still
    registered gets the channel of the first and changes nothing: the two
    waiters share one channel. *)
Theorem WaitForDownload_register_twice h st :
  let ch := (WaitForDownload_register h st).1 in
  let st1 := (WaitForDownload_register h st).2 in
  WaitForDownload_register h st1 = (ch, st1).
Proof.
  simpl. unfold WaitForDownload_register.
  destruct (activeGIDs st !! h) as [ch0|] eqn:Hh; simpl.
  - by rewrite Hh.
  - by rewrite lookup_insert_eq.
Qed.

(** X14: WaitForDownload on a handle whose channel already holds an outcome
    returns that outcome at once, takes it out of the channel and removes
    the entry of the handle. *)
Theorem WaitForDownload_pending_outcome h ch (v : error) (buf : list error) st :
  activeGIDs st !! h = Some ch →
  chans st !! ch = Some (v :: buf) →
  ∃ st', WaitForDownload h st = Returns v st'
         ∧ activeGIDs st' !! h = None
         ∧ chans st' !! ch = Some buf.
Proof.
  intros Hentry Hbuf.
  unfold WaitForDownload, WaitForDownload_register, WaitForDownload_receive, chan_recv.
  rewrite Hentry, Hbuf. eexists. split; [reflexivity |]. simpl.
  by rewrite lookup_delete_eq, lookup_insert_eq.
Qed.

(** X15: two waiters on one handle share a channel, and one notification
    serves one of them only. The first to receive returns and removes the
    entry; the other stays parked, and a later terminal notification for
    the handle finds no entry and does not wake it. *)
Theorem second_waiter_starves h st :
  activeGIDs st !! h = None →
  let ch := (WaitForDownload_register h st).1 in
  let st1 := (WaitForDownload_register h st).2 in
  WaitForDownload_register h st1 = (ch, st1)
  ∧ ∃ st2 st3 st4,
      onDownloadComplete (DownloadEvent.mk h) st1 = Returns None st2
      ∧ WaitForDownload_receive h ch st2 = Returns None st3
      ∧ WaitForDownload_receive h ch st3 = Parks st3
      ∧ onDownloadComplete (DownloadEvent.mk h) st3 = Returns None st4
      ∧ WaitForDownload_receive h ch st4 = Parks st4.
Proof.
  intros Hnone ch st1.
  split.
  { subst ch st1. unfold WaitForDownload_register. rewrite Hnone. simpl.
    by rewrite lookup_insert_eq. }
  destruct (WaitForDownload_register_spec h st) as [Hentry Hbuf].
  { intros ch0 Hch0. by rewrite Hnone in Hch0. }
  fold ch st1 in Hentry, Hbuf.
  unfold onDownloadComplete at 1. simpl.
  rewrite onEvent_activeGIDs, Hentry.
  destruct (signal_round_trip h ch None (onEvent "downloadComplete" (DownloadEvent.mk h) st1))
    as (st2 & Hsend & Hrecv & Hgone); [by rewrite onEvent_chans |].
  rewrite Hsend.
  exists st2, (set_activeGIDs (delete h) (set_chans (<[ch := []]>) st2)).
  eexists. split; [done |]. split; [done |].
  split; [apply WaitForDownload_receive_parks; simpl; by rewrite lookup_insert_eq |].
  unfold onDownloadComplete. simpl. rewrite onEvent_activeGIDs. simpl.
  rewrite lookup_delete_eq. split; [reflexivity |].
  apply WaitForDownload_receive_parks. rewrite onEvent_chans. simpl.
  by rewrite lookup_insert_eq.
Qed.

End MoreRouterProperties.

(** ** Runs of the client *)

Section InvariantProperties.

Context {Fn Status Options : Type}.
Variable zeroStatus : Status.
Variable aria2 : Remote Status Options.
Variable c : positive.
Implicit Types (st : State Fn) (event : DownloadEvent.t) (h : string) (ch : chan).

Lemma registry_wf_same st st' :
  activeGIDs st' = activeGIDs st → chans st' = chans st →
  registry_wf st → registry_wf st'.
Proof. unfold registry_wf. intros -> ->. done. Qed.

Lemma registry_wf_NewClient : registry_wf (@NewClient Fn).
Proof.
  unfold registry_wf, NewClient; simpl. repeat split; intros *; by rewrite lookup_empty.
Qed.

Lemma registry_wf_send ch (v : error) st st' :
  chan_send ch v st = Some st' → registry_wf st → registry_wf st'.
Proof.
  unfold chan_send. destruct (chans st !! ch) as [buf|] eqn:Hch; [| done].
  destruct (decide _) as [Hlt|]; [| done]. intros [= <-] (Halloc & Hinj & Hcap).
  split; [| split]; simpl.
  - intros h0 ch0 Hh0. destruct (decide (ch = ch0)) as [->|Hne].
    + rewrite lookup_insert_eq. by eexists.
    + rewrite lookup_insert_ne by done. by eapply Halloc.
  - exact Hinj.
  - intros ch0 buf0. destruct (decide (ch = ch0)) as [->|Hne].
    + rewrite lookup_insert_eq. intros [= <-]. rewrite length_app. simpl.
      unfold chan_cap in *. lia.
    + rewrite lookup_insert_ne by done. apply Hcap.
Qed.

Lemma registry_wf_recv ch (v : error) st st' :
  chan_recv ch st = Some (v, st') → registry_wf st → registry_wf st'.
Proof.
  unfold chan_recv. destruct (chans st !! ch) as [[|v0 buf]|] eqn:Hch; try done.
  intros [= <- <-] (Halloc & Hinj & Hcap).
  split; [| split]; simpl.
  - intros h0 ch0 Hh0. destruct (decide (ch = ch0)) as [->|Hne].
    + rewrite lookup_insert_eq. by eexists.
    + rewrite lookup_insert_ne by done. by eapply Halloc.
  - exact Hinj.
  - intros ch0 buf0. destruct (decide (ch = ch0)) as [->|Hne].
    + rewrite lookup_insert_eq. intros [= <-]. specialize (Hcap _ _ Hch). simpl in Hcap. lia.
    + rewrite lookup_insert_ne by done. apply Hcap.
Qed.

Lemma make_chan_fresh st : chans st !! (make_chan st).1 = None.
Proof. simpl. apply not_elem_of_dom, is_fresh. Qed.

Lemma registry_wf_make_chan st : registry_wf st → registry_wf (make_chan st).2.
Proof.
  intros (Halloc & Hinj & Hcap). pose proof (make_chan_fresh st) as Hfresh. simpl in *.
  split; [| split]; simpl.
  - intros h0 ch0 Hh0. destruct (Halloc _ _ Hh0) as [buf Hbuf].
    rewrite lookup_insert_ne; [by eexists |]. intros <-. by rewrite Hfresh in Hbuf.
  - exact Hinj.
  - intros ch0 buf0. destruct (decide (fresh (dom (chans st)) = ch0)) as [<-|Hne].
    + rewrite lookup_insert_eq. intros [= <-]. simpl. unfold chan_cap. lia.
    + rewrite lookup_insert_ne by done. apply Hcap.
Qed.

Lemma registry_wf_delete h st : registry_wf st → registry_wf (set_activeGIDs (delete h) st).
Proof.
  intros (Halloc & Hinj & Hcap). split; [| split]; simpl.
  - intros h0 ch0 [_ Hh0]%lookup_delete_Some. by eapply Halloc.
  - intros h1 h2 ch0 [_ H1]%lookup_delete_Some [_ H2]%lookup_delete_Some. by eapply Hinj.
  - exact Hcap.
Qed.

Lemma registry_wf_register h st :
  registry_wf st → registry_wf (WaitForDownload_register h st).2.
Proof.
  intros Hwf. unfold WaitForDownload_register.
  destruct (activeGIDs st !! h) as [ch0|] eqn:Hh; simpl; [done |].
  pose proof (registry_wf_make_chan st Hwf) as (Halloc & Hinj & Hcap).
  pose proof (make_chan_fresh st) as Hfresh. simpl in *.
  destruct Hwf as (Halloc0 & _ & _).
  assert (∀ h0, activeGIDs st !! h0 ≠ Some (fresh (dom (chans st)))) as Hunused.
  { intros h0 Hh0. destruct (Halloc0 _ _ Hh0) as [buf Hbuf]. by rewrite Hfresh in Hbuf. }
  split; [| split]; simpl.
  - intros h0 ch0. destruct (decide (h = h0)) as [->|Hne].
    + rewrite lookup_insert_eq. intros [= <-]. rewrite lookup_insert_eq. by eexists.
    + rewrite lookup_insert_ne by done. apply Halloc.
  - intros h1 h2 ch0.
    destruct (decide (h = h1)) as [->|Hne1], (decide (h1 = h2)) as [->|Hne2]; try done.
    + rewrite lookup_insert_eq, lookup_insert_ne by done.
      intros [= <-] H2. by apply Hunused in H2.
    + rewrite lookup_insert_ne by done.
      destruct (decide (h = h2)) as [->|Hne3].
      * rewrite lookup_insert_eq. intros H1 [= <-]. by apply Hunused in H1.
      * rewrite lookup_insert_ne by done. apply Hinj.
  - exact Hcap.
Qed.

Lemma registry_wf_receive h ch st :
  registry_wf st → registry_wf (Run_state (WaitForDownload_receive h ch st)).
Proof.
  intros Hwf. unfold WaitForDownload_receive.
  destruct (chan_recv ch st) as [[v st']|] eqn:Hrecv; simpl; [| done].
  apply registry_wf_delete. by eapply registry_wf_recv.
Qed.

Lemma registry_wf_onEvent name event st :
  registry_wf st → registry_wf (onEvent name event st).
Proof. apply registry_wf_same; [apply onEvent_activeGIDs | apply onEvent_chans]. Qed.

Lemma registry_wf_signal name event (v : error) st :
  registry_wf st →
  registry_wf
    (Run_state
       (let st := onEvent name event st in
        match activeGIDs st !! DownloadEvent.GID event with
        | Some channel =>
            match chan_send channel v st with
            | Some st => Returns (None : error) st
            | None => Parks st
            end
        | None => Returns None st
        end)).
Proof.
  intros Hwf. apply (registry_wf_onEvent name event) in Hwf. simpl.
  destruct (activeGIDs _ !! _) as [channel|]; [| done].
  destruct (chan_send _ _ _) as [st'|] eqn:Hsend; simpl; [| done].
  by eapply registry_wf_send.
Qed.

Lemma registry_wf_handle method handler event st :
  handle method = Some handler →
  registry_wf st → registry_wf (Run_state (handler event st)).
Proof.
  unfold handle. intros Hh Hwf.
  repeat (destruct (String.eqb method _);
          [injection Hh as <-;
           first [by apply registry_wf_onEvent | by apply registry_wf_signal] |]).
  done.
Qed.

Lemma fold_left_perform_frame {A : Type} (f : A → Effect) (l : list A) :
  ∀ st,
    let st' := fold_left (fun st x => perform (f x) st) l st in
    listeners st' = listeners st ∧ activeGIDs st' = activeGIDs st
    ∧ chans st' = chans st ∧ goroutines st' = goroutines st.
Proof.
  induction l as [|x l IH]; intros st; simpl; [done |].
  destruct (IH (perform (f x) st)) as (-> & -> & -> & ->). done.
Qed.

(** [Delete] only talks to the server and the file system. *)
Lemma Delete_frame h st :
  listeners (Delete aria2 h st).2 = listeners st
  ∧ activeGIDs (Delete aria2 h st).2 = activeGIDs st
  ∧ chans (Delete aria2 h st).2 = chans st
  ∧ goroutines (Delete aria2 h st).2 = goroutines st.
Proof.
  unfold Delete, Remove, GetFiles. destruct (reply_remove aria2 h); simpl; [done |].
  destruct (reply_getFiles aria2 h) as [files [e|]]; simpl; [done |].
  destruct (fold_left_perform_frame (fun file => OsRemove (Path file)) files
              (perform (RpcCall "aria2.getFiles" [h]) (perform (RpcCall "aria2.remove" [h]) st)))
    as (-> & -> & -> & ->).
  done.
Qed.

Lemma registry_wf_Delete h st : registry_wf st → registry_wf (Delete aria2 h st).2.
Proof.
  destruct (Delete_frame h st) as (_ & Ha & Hc & _). by apply registry_wf_same.
Qed.

Lemma registry_wf_submit uris (options : option Options) st :
  registry_wf st →
  registry_wf
    match DownloadWithContext_submit zeroStatus aria2 c uris options st with
    | Aborted _ _ st => st
    | AtSelect _ _ st => st
    end.
Proof.
  intros Hwf. unfold DownloadWithContext_submit, AddUri, AddUriAtPosition.
  destruct (reply_addUri aria2 uris options None) as [reply [e|]]; simpl.
  - revert Hwf. by apply registry_wf_same.
  - apply (registry_wf_same (make_chan (perform (RpcCall "aria2.addUri" uris) st)).2);
      [done | done |].
    apply registry_wf_make_chan. revert Hwf. by apply registry_wf_same.
Qed.

Lemma registry_wf_GoWait_receive (gid : GID.t) ch (downloadDone : chan) st :
  registry_wf st → registry_wf (Run_state (GoWait_receive gid ch downloadDone st)).
Proof.
  intros Hwf. unfold GoWait_receive, GID_WaitForDownload_receive.
  pose proof (registry_wf_receive (GID.GID gid) ch st Hwf) as Hwf'.
  destruct (WaitForDownload_receive (GID.GID gid) ch st) as [err st'|st']; simpl in *; [| done].
  destruct (chan_send downloadDone err st') as [st''|] eqn:Hsend; simpl; [| done].
  by eapply registry_wf_send.
Qed.

Lemma registry_wf_select (gid : GID.t) (downloadDone : chan) (ctx_done : bool) (pick : nat) st :
  registry_wf st →
  registry_wf
    (Run_state (DownloadWithContext_select zeroStatus aria2 gid downloadDone ctx_done pick st)).
Proof.
  intros Hwf. unfold DownloadWithContext_select.
  destruct (select pick _) as [[|]|]; simpl; [| | done].
  - destruct (chan_recv downloadDone st) as [[v st']|] eqn:Hrecv; simpl; [| done].
    unfold GID_TellStatus, TellStatus.
    destruct (reply_tellStatus aria2 (GID.GID gid)) as [status err]. simpl.
    apply (registry_wf_same st'); [done | done |]. by eapply registry_wf_recv.
  - unfold GID_Delete. pose proof (registry_wf_Delete (GID.GID gid) st Hwf) as Hwf'.
    by destruct (Delete aria2 (GID.GID gid) st).
Qed.

Lemma registry_wf_exec (op : Op Fn Options) st :
  registry_wf st → registry_wf (exec zeroStatus aria2 c st op).
Proof.
  intros Hwf. destruct op; simpl.
  - revert Hwf. apply registry_wf_same; unfold Subscribe; by destruct (listeners st !! name).
  - destruct (handle method) as [handler|] eqn:Hh; [| done]. by eapply registry_wf_handle.
  - unfold WaitForDownload.
    pose proof (registry_wf_register gid st Hwf) as Hwf'.
    destruct (WaitForDownload_register gid st) as [ch st']. by apply registry_wf_receive.
  - by apply registry_wf_receive.
  - by apply registry_wf_submit.
  - unfold GoWait_run, GID_WaitForDownload_register.
    pose proof (registry_wf_register (GID.GID gid) st Hwf) as Hwf'.
    destruct (WaitForDownload_register (GID.GID gid) st) as [ch st'].
    by apply registry_wf_GoWait_receive.
  - by apply registry_wf_GoWait_receive.
  - by apply registry_wf_select.
  - by apply registry_wf_Delete.
Qed.

Lemma registry_wf_run (ops : list (Op Fn Options)) :
  ∀ st, registry_wf st → registry_wf (fold_left (exec zeroStatus aria2 c) ops st).
Proof.
  induction ops as [|op ops IH]; intros st Hwf; simpl; [done |].
  apply IH. by apply registry_wf_exec.
Qed.

(** X16: whatever the process runs of the client, in whatever order, from a
    new client on, the completion registry keeps its shape: every channel
    in the waiter table exists, no two handles share a channel, and no
    channel holds more than one outcome. *)
Theorem registry_wf_invariant (ops : list (Op Fn Options)) :
  registry_wf (fold_left (exec zeroStatus aria2 c) ops NewClient).
Proof.
  generalize registry_wf_NewClient. generalize (@NewClient Fn).
  induction ops as [|op ops IH]; intros st Hwf; simpl.
  - exact Hwf.
  - apply IH. by apply registry_wf_exec.
Qed.

Lemma signal_leaves_other_channels name event (v : error) ch' st :
  (∀ ch, activeGIDs st !! DownloadEvent.GID event = Some ch → ch ≠ ch') →
  chans
    (Run_state
       (let st := onEvent name event st in
        match activeGIDs st !! DownloadEvent.GID event with
        | Some channel =>
            match chan_send channel v st with
            | Some st => Returns (None : error) st
            | None => Parks st
            end
        | None => Returns None st
        end)) !! ch' = chans st !! ch'.
Proof.
  intros Hother. cbv zeta. rewrite onEvent_activeGIDs.
  destruct (activeGIDs st !! DownloadEvent.GID event) as [ch|] eqn:Hh; simpl;
    [| by rewrite onEvent_chans].
  unfold chan_send. rewrite onEvent_chans.
  destruct (chans st !! ch) as [buf|] eqn:Hbuf; simpl; [| by rewrite onEvent_chans].
  destruct (decide _); simpl; [| by rewrite onEvent_chans].
  rewrite lookup_insert_ne by by apply Hother. by rewrite onEvent_chans.
Qed.

(** X17: in a registry of that shape a terminal notification for one handle
    leaves the channel of every other waiting handle as it is. *)
Theorem terminal_notification_reaches_one_waiter event h' ch' st :
  registry_wf st →
  activeGIDs st !! h' = Some ch' →
  h' ≠ DownloadEvent.GID event →
  chans (Run_state (onDownloadStop event st)) !! ch' = chans st !! ch'
  ∧ chans (Run_state (onDownloadComplete event st)) !! ch' = chans st !! ch'
  ∧ chans (Run_state (onDownloadError event st)) !! ch' = chans st !! ch'.
Proof.
  intros (_ & Hinj & _) Hh' Hne.
  assert (∀ ch, activeGIDs st !! DownloadEvent.GID event = Some ch → ch ≠ ch') as Hother.
  { intros ch Hch ->. apply Hne. by eapply Hinj. }
  repeat split; by apply signal_leaves_other_channels.
Qed.

End InvariantProperties.

(** ** The orchestrator, further *)

Section MoreOrchestratorProperties.

Context {Fn Status Options : Type}.
Variable zeroStatus : Status.
Variable aria2 : Remote Status Options.
Variable c : positive.
Implicit Types (st : State Fn) (uris : list string) (options : option Options).
Implicit Types (meanwhile : State Fn → State Fn) (gid : GID.t) (downloadDone ch : chan).
Implicit Types (h : string).

Lemma fold_left_perform_effects {A : Type} (f : A → Effect) (l : list A) :
  ∀ st, effects (fold_left (fun st x => perform (f x) st) l st) = effects st ++ (f <$> l).
Proof.
  induction l as [|x l IH]; intros st; simpl.
  - by rewrite app_nil_r.
  - rewrite IH. simpl. by rewrite <- app_assoc.
Qed.

(** X18: Delete returns the error of aria2.remove if there is one, else the
    error of aria2.getFiles. It asks for the files only after a successful
    removal, and removes them from disk, one os.Remove per file in the
    order of the list, only when both calls succeeded; what os.Remove
    returns is never reported. *)
Theorem Delete_outcome h st :
  (Delete aria2 h st).1
  = match reply_remove aria2 h with
    | Some e => Some e
    | None => (reply_getFiles aria2 h).2
    end
  ∧ effects (Delete aria2 h st).2
    = effects st ++ RpcCall "aria2.remove" [h]
        :: match reply_remove aria2 h with
           | Some _ => []
           | None =>
               RpcCall "aria2.getFiles" [h]
                 :: match (reply_getFiles aria2 h).2 with
                    | Some _ => []
                    | None => (fun file => OsRemove (Path file)) <$> (reply_getFiles aria2 h).1
                    end
           end.
Proof.
  unfold Delete, Remove, GetFiles. destruct (reply_remove aria2 h); simpl; [done |].
  destruct (reply_getFiles aria2 h) as [files [e|]]; simpl.
  - split; [done |]. by rewrite <- app_assoc.
  - split; [done |]. rewrite fold_left_perform_effects. simpl. by rewrite <- !app_assoc.
Qed.

Lemma select_done gid downloadDone (v : error) (buf : list error) (pick : nat) st :
  chans st !! downloadDone = Some (v :: buf) →
  DownloadWithContext_select zeroStatus aria2 gid downloadDone false pick st
  = Returns (reply_tellStatus aria2 (GID.GID gid))
      (perform (RpcCall "aria2.tellStatus" [GID.GID gid])
         (set_chans (<[downloadDone := buf]>) st)).
Proof.
  intros Hdd. unfold DownloadWithContext_select, ready_cases, select, chan_recv.
  rewrite Hdd. simpl app. simpl length. rewrite Nat.mod_1_r. simpl.
  unfold GID_TellStatus, TellStatus. by destruct (reply_tellStatus aria2 (GID.GID gid)).
Qed.

(** X19: when [downloadDone] holds the outcome of the wait and the context
    is not cancelled, DownloadWithContext returns what aria2.tellStatus
    replies, status and error, after that one call; the outcome of the
    wait itself (nil, stopped or errored) is read and dropped, so the
    result is the same for every outcome. *)
Theorem DownloadWithContext_select_done gid downloadDone (v : error) (buf : list error)
  (pick : nat) st :
  chans st !! downloadDone = Some (v :: buf) →
  ∃ st',
    DownloadWithContext_select zeroStatus aria2 gid downloadDone false pick st
    = Returns (reply_tellStatus aria2 (GID.GID gid)) st'
    ∧ effects st' = effects st ++ [RpcCall "aria2.tellStatus" [GID.GID gid]]
    ∧ chans st' !! downloadDone = Some buf
    ∧ ∀ v' : error,
        DownloadWithContext_select zeroStatus aria2 gid downloadDone false pick
          (set_chans (<[downloadDone := v' :: buf]>) st)
        = Returns (reply_tellStatus aria2 (GID.GID gid)) st'.
Proof.
  intros Hdd. eexists. split; [by apply (select_done _ _ v buf) |].
  split; [done |]. split; [simpl; by rewrite lookup_insert_eq |].
  intros v'. rewrite (select_done _ _ v' buf) by (simpl; by rewrite lookup_insert_eq).
  do 2 f_equal. unfold set_chans. simpl. by rewrite insert_insert_eq.
Qed.

(** X20: when the wait has ended and the context is cancelled as well, the
    [select] may go either way: an even [pick] gives the reply of
    aria2.tellStatus, an odd one the cancellation error after [Delete]. *)
Theorem DownloadWithContext_select_both_ready gid downloadDone (v : error) (buf : list error)
  (pick : nat) st :
  chans st !! downloadDone = Some (v :: buf) →
  (Nat.even pick = true →
   ∃ st', DownloadWithContext_select zeroStatus aria2 gid downloadDone true pick st
          = Returns (reply_tellStatus aria2 (GID.GID gid)) st')
  ∧ (Nat.even pick = false →
     ∃ st', DownloadWithContext_select zeroStatus aria2 gid downloadDone true pick st
            = Returns (zeroStatus, errors_New "download cancelled") st').
Proof.
  intros Hdd. unfold DownloadWithContext_select, ready_cases, select, chan_recv.
  rewrite Hdd. simpl app. simpl length.
  split; intros Hpick.
  - assert (pick mod 2 = 0) as ->.
    { apply Nat.even_spec in Hpick as [k ->]. rewrite Nat.mul_comm. apply Nat.Div0.mod_mul. }
    simpl. unfold GID_TellStatus, TellStatus.
    destruct (reply_tellStatus aria2 (GID.GID gid)). eauto.
  - assert (pick mod 2 = 1) as ->.
    { rewrite <- Nat.negb_odd in Hpick. apply negb_false_iff, Nat.odd_spec in Hpick as [k ->].
      rewrite Nat.add_comm, Nat.mul_comm. rewrite Nat.Div0.mod_add. done. }
    simpl. destruct (GID_Delete aria2 gid st). eauto.
Qed.

(** X21: Download never gives up: when it returns, it returns either the
    submission error with the zero status, having done nothing but the
    aria2.addUri call, or the reply of aria2.tellStatus for the new
    handle; it never returns the cancellation error of
    DownloadWithContext and never calls [Delete]. *)
Theorem Download_returns meanwhile (pick : nat) uris options st
  (r : Status * error) (st' : State Fn) :
  Download zeroStatus aria2 c meanwhile pick uris options st = Returns r st' →
  (∃ msg, (reply_addUri aria2 uris options None).2 = Some msg
          ∧ r = (zeroStatus, Some msg)
          ∧ st' = perform (RpcCall "aria2.addUri" uris) st)
  ∨ ((reply_addUri aria2 uris options None).2 = None
     ∧ r = reply_tellStatus aria2 (reply_addUri aria2 uris options None).1
     ∧ ∃ gid downloadDone st1,
         DownloadWithContext_submit zeroStatus aria2 c uris options st
         = AtSelect gid downloadDone st1
         ∧ effects st' = effects (meanwhile st1)
                         ++ [RpcCall "aria2.tellStatus" [(reply_addUri aria2 uris options None).1]]).
Proof.
  unfold Download, DownloadWithContext.
  destruct (reply_addUri aria2 uris options None) as [reply [msg|]] eqn:Hreply.
  - unfold DownloadWithContext_submit, AddUri, AddUriAtPosition. rewrite Hreply. simpl.
    intros [= <- <-]. left. eauto.
  - pose proof (DownloadWithContext_submit_ok zeroStatus aria2 c uris options st) as Hsub.
    rewrite Hreply in Hsub. simpl in Hsub. rewrite Hsub by done.
    intros Hret. right. split; [done |].
    match type of Hsub with
    | _ → _ = AtSelect ?g ?d ?s1 =>
        destruct (chans (meanwhile s1) !! d) as [[|v buf]|] eqn:Hdd
    end.
    1, 3: unfold DownloadWithContext_select, ready_cases, select in Hret;
          rewrite Hdd in Hret; simpl in Hret; discriminate Hret.
    rewrite (select_done _ _ v buf) in Hret by done.
    injection Hret as <- <-. simpl. split; [done |]. eauto.
Qed.

(** The goroutine of the wait, once started, parks on the channel of the
    handle; that channel and [downloadDone] are two empty channels. *)
Lemma GoWait_run_parks uris options st :
  (reply_addUri aria2 uris options None).2 = None →
  (∀ ch, activeGIDs st !! (reply_addUri aria2 uris options None).1 = Some ch →
         chans st !! ch = Some []) →
  ∃ gid downloadDone st1 ch st2,
    DownloadWithContext_submit zeroStatus aria2 c uris options st
    = AtSelect gid downloadDone st1
    ∧ GID.GID gid = (reply_addUri aria2 uris options None).1
    ∧ GID_WaitForDownload_register gid st1 = (ch, st2)
    ∧ GoWait_run gid downloadDone st1 = Parks st2
    ∧ activeGIDs st2 !! GID.GID gid = Some ch
    ∧ chans st2 !! ch = Some []
    ∧ chans st2 !! downloadDone = Some []
    ∧ ch ≠ downloadDone.
Proof.
  intros Hok Hempty.
  pose proof (DownloadWithContext_submit_ok zeroStatus aria2 c uris options st Hok) as Hsub.
  simpl in Hsub.
  set (h := (reply_addUri aria2 uris options None).1) in *.
  set (dd := fresh (dom (chans st))) in *.
  assert (chans st !! dd = None) as Hdd by apply not_elem_of_dom, is_fresh.
  match type of Hsub with _ = AtSelect ?g ?d ?s1 => exists g, d, s1 end.
  unfold GoWait_run, GID_WaitForDownload_register, WaitForDownload_register. simpl. fold h.
  destruct (activeGIDs st !! h) as [ch|] eqn:Hh.
  - assert (ch ≠ dd) as Hne by (intros ->; rewrite (Hempty dd) in Hdd; done).
    eexists ch, _. split; [exact Hsub |]. split; [done |]. split; [reflexivity |].
    assert (chans st !! ch = Some []) as Hch by by apply Hempty.
    unfold GoWait_receive, GID_WaitForDownload_receive, WaitForDownload_receive, chan_recv.
    simpl. rewrite lookup_insert_ne by done. rewrite Hch.
    repeat split; try done.
    simpl. by rewrite lookup_insert_eq.
  - set (ch := fresh (dom (<[dd := ([] : list error)]> (chans st)))).
    assert (ch ≠ dd) as Hne.
    { intros Heq. pose proof (is_fresh (dom (<[dd := ([] : list error)]> (chans st)))) as Hf.
      fold ch in Hf. rewrite Heq in Hf. apply Hf, elem_of_dom.
      rewrite lookup_insert_eq. by eexists. }
    eexists ch, _. split; [exact Hsub |]. split; [done |]. split; [reflexivity |].
    unfold GoWait_receive, GID_WaitForDownload_receive, WaitForDownload_receive, chan_recv.
    simpl. fold ch. rewrite !lookup_insert_eq.
    repeat split; try done.
    simpl. rewrite lookup_insert_ne by done. by rewrite lookup_insert_eq.
Qed.

(** One terminal notification carried from the handler to the caller. *)
Lemma deliver_and_return gid downloadDone ch (v : error) name st2 st3 (pick : nat) :
  activeGIDs st2 !! GID.GID gid = Some ch →
  chans st2 !! ch = Some [] →
  chans st2 !! downloadDone = Some [] →
  ch ≠ downloadDone →
  st3 = set_chans (<[ch := [v]]>) (onEvent name (DownloadEvent.mk (GID.GID gid)) st2) →
  ∃ st4 st5,
    GoWait_receive gid ch downloadDone st3 = Returns tt st4
    ∧ chans st4 !! downloadDone = Some [v]
    ∧ activeGIDs st4 !! GID.GID gid = None
    ∧ DownloadWithContext_select zeroStatus aria2 gid downloadDone false pick st4
      = Returns (reply_tellStatus aria2 (GID.GID gid)) st5
    ∧ activeGIDs st5 !! GID.GID gid = None.
Proof.
  intros Hentry Hch Hdd Hne ->.
  unfold GoWait_receive, GID_WaitForDownload_receive, WaitForDownload_receive, chan_recv,
    chan_send.
  simpl. rewrite lookup_insert_eq. simpl.
  rewrite lookup_insert_ne by done. rewrite lookup_insert_ne by done.
  rewrite onEvent_chans, Hdd. simpl.
  eexists _, _. split; [reflexivity |].
  split; [simpl; by rewrite lookup_insert_eq |].
  split; [simpl; by rewrite lookup_delete_eq |].
  split.
  - apply (select_done gid downloadDone v []).
    simpl. by rewrite lookup_insert_eq.
  - simpl. by rewrite lookup_delete_eq.
Qed.

Lemma handler_sends (name : string) (v : error) (event : DownloadEvent.t) ch st :
  activeGIDs st !! DownloadEvent.GID event = Some ch →
  chans st !! ch = Some [] →
  (let st := onEvent name event st in
   match activeGIDs st !! DownloadEvent.GID event with
   | Some channel =>
       match chan_send channel v st with
       | Some st => Returns (None : error) st
       | None => Parks st
       end
   | None => Returns None st
   end) = Returns None (set_chans (<[ch := [v]]>) (onEvent name event st)).
Proof.
  intros Hentry Hch. cbv zeta. rewrite onEvent_activeGIDs, Hentry.
  unfold chan_send. rewrite onEvent_chans, Hch. done.
Qed.

(** X22: a download from submission to return. The submission goes through
    and no outcome is pending for the new handle; the goroutine of the
    wait parks; a terminal notification for the handle is handled; the
    goroutine takes the outcome, removes the entry of the handle and
    passes the outcome to [downloadDone]; the [select], the context not
    being cancelled, returns the reply of aria2.tellStatus. This holds
    for each of the three terminal notifications alike. *)
Theorem DownloadWithContext_end_to_end (pick : nat) uris options st :
  (reply_addUri aria2 uris options None).2 = None →
  (∀ ch, activeGIDs st !! (reply_addUri aria2 uris options None).1 = Some ch →
         chans st !! ch = Some []) →
  ∃ gid downloadDone st1 ch st2,
    DownloadWithContext_submit zeroStatus aria2 c uris options st
    = AtSelect gid downloadDone st1
    ∧ GID.GID gid = (reply_addUri aria2 uris options None).1
    ∧ GID_WaitForDownload_register gid st1 = (ch, st2)
    ∧ GoWait_run gid downloadDone st1 = Parks st2
    ∧ ∀ handler,
        handler ∈ [@onDownloadStop Fn; onDownloadComplete; onDownloadError] →
        ∃ st3 st4 st5,
          handler (DownloadEvent.mk (GID.GID gid)) st2 = Returns None st3
          ∧ GoWait_receive gid ch downloadDone st3 = Returns tt st4
          ∧ activeGIDs st4 !! GID.GID gid = None
          ∧ DownloadWithContext_select zeroStatus aria2 gid downloadDone false pick st4
            = Returns (reply_tellStatus aria2 (GID.GID gid)) st5
          ∧ (∀ meanwhile, meanwhile st1 = st4 →
               DownloadWithContext zeroStatus aria2 c meanwhile false pick uris options st
               = Returns (reply_tellStatus aria2 (GID.GID gid)) st5).
Proof.
  intros Hok Hempty.
  destruct (GoWait_run_parks uris options st Hok Hempty)
    as (gid & dd & st1 & ch & st2 & Hsub & Hgid & Hreg & Hrun & Hentry & Hch & Hdd & Hne).
  exists gid, dd, st1, ch, st2. do 4 (split; [done |]).
  assert (∀ name (v : error),
    ∃ st4 st5,
      GoWait_receive gid ch dd
        (set_chans (<[ch := [v]]>) (onEvent name (DownloadEvent.mk (GID.GID gid)) st2))
      = Returns tt st4
      ∧ activeGIDs st4 !! GID.GID gid = None
      ∧ DownloadWithContext_select zeroStatus aria2 gid dd false pick st4
        = Returns (reply_tellStatus aria2 (GID.GID gid)) st5
      ∧ (∀ meanwhile, meanwhile st1 = st4 →
           DownloadWithContext zeroStatus aria2 c meanwhile false pick uris options st
           = Returns (reply_tellStatus aria2 (GID.GID gid)) st5)) as Hgo.
  { intros name v.
    destruct (deliver_and_return gid dd ch v name st2 _ pick Hentry Hch Hdd Hne eq_refl)
      as (st4 & st5 & Hrecv & _ & Hgone & Hsel & _).
    exists st4, st5. do 3 (split; [done |]).
    intros meanwhile Hm. unfold DownloadWithContext. by rewrite Hsub, Hm. }
  intros handler Hin.
  apply elem_of_cons in Hin as [->|Hin]; [| apply elem_of_cons in Hin as [->|Hin];
    [| apply list_elem_of_singleton in Hin as ->]].
  - destruct (Hgo "downloadStop" (errors_New "download stopped")) as (st4 & st5 & ?).
    eexists _, st4, st5. split; [| done].
    by apply (handler_sends "downloadStop" _ (DownloadEvent.mk (GID.GID gid)) ch).
  - destruct (Hgo "downloadComplete" None) as (st4 & st5 & ?).
    eexists _, st4, st5. split; [| done].
    by apply (handler_sends "downloadComplete" _ (DownloadEvent.mk (GID.GID gid)) ch).
  - destruct (Hgo "downloadError" (errors_New "download encountered error")) as (st4 & st5 & ?).
    eexists _, st4, st5. split; [| done].
    by apply (handler_sends "downloadError" _ (DownloadEvent.mk (GID.GID gid)) ch).
Qed.

Lemma DownloadWithContext_select_cancel gid downloadDone (pick : nat) st :
  chans st !! downloadDone = Some [] →
  DownloadWithContext_select zeroStatus aria2 gid downloadDone true pick st
  = Returns (zeroStatus, errors_New "download cancelled") (GID_Delete aria2 gid st).2.
Proof.
  intros Hdd. unfold DownloadWithContext_select, ready_cases, select.
  rewrite Hdd. simpl app. simpl length. rewrite Nat.mod_1_r. simpl.
  by destruct (GID_Delete aria2 gid st).
Qed.

(** X23: cancelling does not take the wait back. After DownloadWithContext
    has returned the cancellation error, the goroutine of the wait is
    still parked and the entry of the handle is still in the waiter table;
    a later terminal notification for the handle is delivered to that
    goroutine, which then removes the entry. *)
Theorem cancelled_wait_is_cleaned_up_later (pick : nat) uris options st :
  (reply_addUri aria2 uris options None).2 = None →
  (∀ ch, activeGIDs st !! (reply_addUri aria2 uris options None).1 = Some ch →
         chans st !! ch = Some []) →
  ∃ gid downloadDone st1 ch st',
    DownloadWithContext_submit zeroStatus aria2 c uris options st
    = AtSelect gid downloadDone st1
    ∧ GoWait_run gid downloadDone st1 = Parks (run_wait_goroutine st1)
    ∧ DownloadWithContext zeroStatus aria2 c run_wait_goroutine true pick uris options st
      = Returns (zeroStatus, errors_New "download cancelled") st'
    ∧ activeGIDs st' !! GID.GID gid = Some ch
    ∧ ∀ handler,
        handler ∈ [@onDownloadStop Fn; onDownloadComplete; onDownloadError] →
        ∃ st3 st4,
          handler (DownloadEvent.mk (GID.GID gid)) st' = Returns None st3
          ∧ GoWait_receive gid ch downloadDone st3 = Returns tt st4
          ∧ activeGIDs st4 !! GID.GID gid = None.
Proof.
  intros Hok Hempty.
  destruct (GoWait_run_parks uris options st Hok Hempty)
    as (gid & dd & st1 & ch & st2 & Hsub & Hgid & Hreg & Hrun & Hentry & Hch & Hdd & Hne).
  destruct (not_done_before_terminal zeroStatus aria2 c uris options st Hok Hempty _ _ _ Hsub)
    as (_ & Hrun' & _).
  rewrite Hrun in Hrun'. injection Hrun' as Hst2.
  exists gid, dd, st1, ch, (GID_Delete aria2 gid st2).2.
  split; [done |]. split; [by rewrite <- Hst2 |].
  destruct (Delete_frame aria2 (GID.GID gid) st2) as (_ & Ha & Hc & _).
  fold (GID_Delete aria2 gid st2) in Ha, Hc.
  split.
  { unfold DownloadWithContext. rewrite Hsub, <- Hst2.
    by apply DownloadWithContext_select_cancel. }
  split; [by rewrite Ha |].
  assert (∀ name (v : error),
    ∃ st4,
      GoWait_receive gid ch dd
        (set_chans (<[ch := [v]]>)
           (onEvent name (DownloadEvent.mk (GID.GID gid)) (GID_Delete aria2 gid st2).2))
      = Returns tt st4
      ∧ activeGIDs st4 !! GID.GID gid = None) as Hgo.
  { intros name v.
    assert (activeGIDs (GID_Delete aria2 gid st2).2 !! GID.GID gid = Some ch) as Hentry'
      by by rewrite Ha.
    assert (chans (GID_Delete aria2 gid st2).2 !! ch = Some []) as Hch' by by rewrite Hc.
    assert (chans (GID_Delete aria2 gid st2).2 !! dd = Some []) as Hdd' by by rewrite Hc.
    destruct (deliver_and_return gid dd ch v name (GID_Delete aria2 gid st2).2 _ pick
                Hentry' Hch' Hdd' Hne eq_refl)
      as (st4 & st5 & Hrecv & _ & Hgone & _).
    eauto. }
  intros handler Hin.
  apply elem_of_cons in Hin as [->|Hin]; [| apply elem_of_cons in Hin as [->|Hin];
    [| apply list_elem_of_singleton in Hin as ->]].
  - destruct (Hgo "downloadStop" (errors_New "download stopped")) as (st4 & ?).
    eexists _, st4. split; [| done].
    apply (handler_sends "downloadStop" _ (DownloadEvent.mk (GID.GID gid)) ch);
      simpl; by rewrite ?Ha, ?Hc.
  - destruct (Hgo "downloadComplete" None) as (st4 & ?).
    eexists _, st4. split; [| done].
    apply (handler_sends "downloadComplete" _ (DownloadEvent.mk (GID.GID gid)) ch);
      simpl; by rewrite ?Ha, ?Hc.
  - destruct (Hgo "downloadError" (errors_New "download encountered error")) as (st4 & ?).
    eexists _, st4. split; [| done].
    apply (handler_sends "downloadError" _ (DownloadEvent.mk (GID.GID gid)) ch);
      simpl; by rewrite ?Ha, ?Hc.
Qed.

End MoreOrchestratorProperties.

(** ** The further properties at concrete inputs *)

Lemma MultiCall_Error_on_success_witness :
  let r := {| Result := Some (Str "OK"); Error := Some zeroMethodCallError |} in
  Error r ≠ None ∧ (Result r ≠ None → Error r = Some zeroMethodCallError).
Proof.
  intros r.
  apply (MultiCall_Error_on_success [Some (Arr [Str "OK"])] None 0 r).
  reflexivity.
Defined.

Lemma MultiCall_payload_is_first_member_witness :
  let rawResults : list RawMessage := [Some (Arr [Str "OK"; Str "dropped"])] in
  let r := {| Result := Some (Str "OK"); Error := Some zeroMethodCallError |} in
  Result r = Some (Str "OK")
  ↔ ∃ rest, rawResults !! 0 = Some (Some (Arr (Str "OK" :: rest)) : RawMessage).
Proof.
  intros rawResults r.
  apply (MultiCall_payload_is_first_member rawResults None 0 r (Str "OK")).
  reflexivity.
Defined.

Lemma MultiCall_failure_is_object_witness :
  let rawResults : list RawMessage := [Some (Obj [("code", Int 1)])] in
  ∃ members, rawResults !! 0 = Some (Some (Obj members) : RawMessage).
Proof.
  intros rawResults.
  apply (MultiCall_failure_is_object rawResults None 0
           {| Result := None; Error := Some {| Code := 1; Message := "" |} |}).
  - reflexivity.
  - eexists. split; [reflexivity | discriminate].
Defined.

Lemma Subscribe_many_witness :
  let event := DownloadEvent.mk "2089b05ecca3d829" in
  let ls : list (EventListener string) := [Some "l1"; Some "l2"] in
  let st' := fold_left (fun st l => Subscribe "downloadStart" l st) ls (@NewClient string) in
  let table := default [None] (listeners (@NewClient string) !! "downloadStart") ++ ls in
  listeners st' !! "downloadStart" = Some table
  ∧ goroutines (onEvent "downloadStart" event st')
    = goroutines (@NewClient string) ++ ((fun listener => GoListener listener event) <$> table).
Proof.
  intros event ls.
  apply (Subscribe_many "downloadStart" event ls (@NewClient string)).
  discriminate.
Defined.

Lemma terminal_notification_on_full_channel_witness :
  let h := "2089b05ecca3d829" in
  let event := DownloadEvent.mk h in
  let st := Run_state (onDownloadStop event (WaitForDownload_register h (@NewClient string)).2) in
  (∃ st', onDownloadStop event st = Parks st'
          ∧ activeGIDs st' = activeGIDs st ∧ chans st' = chans st)
  ∧ (∃ st', onDownloadComplete event st = Parks st'
            ∧ activeGIDs st' = activeGIDs st ∧ chans st' = chans st)
  ∧ (∃ st', onDownloadError event st = Parks st'
            ∧ activeGIDs st' = activeGIDs st ∧ chans st' = chans st).
Proof.
  intros h event st.
  apply (terminal_notification_on_full_channel event
           (WaitForDownload_register h (@NewClient string)).1
           (errors_New "download stopped") [] st); vm_compute; reflexivity.
Defined.

Lemma notification_before_wait_is_lost_witness :
  let h := "2089b05ecca3d829" in
  let st := @NewClient string in
  (∃ st1 st2, onDownloadStop (DownloadEvent.mk h) st = Returns None st1
              ∧ WaitForDownload h st1 = Parks st2 ∧ is_Some (activeGIDs st2 !! h))
  ∧ (∃ st1 st2, onDownloadComplete (DownloadEvent.mk h) st = Returns None st1
                ∧ WaitForDownload h st1 = Parks st2 ∧ is_Some (activeGIDs st2 !! h))
  ∧ (∃ st1 st2, onDownloadError (DownloadEvent.mk h) st = Returns None st1
                ∧ WaitForDownload h st1 = Parks st2 ∧ is_Some (activeGIDs st2 !! h)).
Proof.
  intros h st.
  apply (notification_before_wait_is_lost h st). reflexivity.
Defined.

Lemma WaitForDownload_pending_outcome_witness :
  let h := "2089b05ecca3d829" in
  let ch := (WaitForDownload_register h (@NewClient string)).1 in
  let st := Run_state (onDownloadError (DownloadEvent.mk h)
                         (WaitForDownload_register h (@NewClient string)).2) in
  ∃ st', WaitForDownload h st = Returns (errors_New "download encountered error") st'
         ∧ activeGIDs st' !! h = None
         ∧ chans st' !! ch = Some [].
Proof.
  intros h ch st.
  apply (WaitForDownload_pending_outcome h ch (errors_New "download encountered error") [] st);
    vm_compute; reflexivity.
Defined.

Lemma second_waiter_starves_witness :
  let h := "2089b05ecca3d829" in
  let st := @NewClient string in
  let ch := (WaitForDownload_register h st).1 in
  let st1 := (WaitForDownload_register h st).2 in
  WaitForDownload_register h st1 = (ch, st1)
  ∧ ∃ st2 st3 st4,
      onDownloadComplete (DownloadEvent.mk h) st1 = Returns None st2
      ∧ WaitForDownload_receive h ch st2 = Returns None st3
      ∧ WaitForDownload_receive h ch st3 = Parks st3
      ∧ onDownloadComplete (DownloadEvent.mk h) st3 = Returns None st4
      ∧ WaitForDownload_receive h ch st4 = Parks st4.
Proof.
  intros h st.
  apply (second_waiter_starves h st). reflexivity.
Defined.

Lemma terminal_notification_reaches_one_waiter_witness :
  let st := fold_left (exec "" stubborn_server 1%positive)
              [OpWaitForDownload "0123456789abcdef"; OpWaitForDownload "2089b05ecca3d829"]
              (@NewClient string) in
  let event := DownloadEvent.mk "0123456789abcdef" in
  let ch' := (WaitForDownload_register "2089b05ecca3d829"
                (WaitForDownload_register "0123456789abcdef" (@NewClient string)).2).1 in
  chans (Run_state (onDownloadStop event st)) !! ch' = chans st !! ch'
  ∧ chans (Run_state (onDownloadComplete event st)) !! ch' = chans st !! ch'
  ∧ chans (Run_state (onDownloadError event st)) !! ch' = chans st !! ch'.
Proof.
  intros st event ch'.
  apply (terminal_notification_reaches_one_waiter event "2089b05ecca3d829" ch' st).
  - apply registry_wf_run, registry_wf_NewClient.
  - vm_compute. reflexivity.
  - discriminate.
Defined.

Lemma DownloadWithContext_select_done_witness :
  let gid := GetGID 1%positive "2089b05ecca3d829" in
  let downloadDone : chan := 1%positive in
  let st := set_chans (<[downloadDone := [errors_New "download stopped"]]>) (@NewClient string) in
  ∃ st',
    DownloadWithContext_select "" stubborn_server gid downloadDone false 0 st
    = Returns (reply_tellStatus stubborn_server (GID.GID gid)) st'
    ∧ effects st' = effects st ++ [RpcCall "aria2.tellStatus" [GID.GID gid]]
    ∧ chans st' !! downloadDone = Some []
    ∧ ∀ v' : error,
        DownloadWithContext_select "" stubborn_server gid downloadDone false 0
          (set_chans (<[downloadDone := [v']]>) st)
        = Returns (reply_tellStatus stubborn_server (GID.GID gid)) st'.
Proof.
  intros gid downloadDone st.
  apply (DownloadWithContext_select_done "" stubborn_server gid downloadDone
           (errors_New "download stopped") [] 0 st).
  vm_compute. reflexivity.
Defined.

Lemma DownloadWithContext_select_both_ready_witness :
  let gid := GetGID 1%positive "2089b05ecca3d829" in
  let downloadDone : chan := 1%positive in
  let st := set_chans (<[downloadDone := [None]]>) (@NewClient string) in
  (Nat.even 3 = true →
   ∃ st', DownloadWithContext_select "" stubborn_server gid downloadDone true 3 st
          = Returns (reply_tellStatus stubborn_server (GID.GID gid)) st')
  ∧ (Nat.even 3 = false →
     ∃ st', DownloadWithContext_select "" stubborn_server gid downloadDone true 3 st
            = Returns ("", errors_New "download cancelled") st').
Proof.
  intros gid downloadDone st.
  apply (DownloadWithContext_select_both_ready "" stubborn_server gid downloadDone None [] 3 st).
  vm_compute. reflexivity.
Defined.

Lemma Download_returns_witness :
  let uris := @nil string in
  let st := @NewClient string in
  (∃ msg, (reply_addUri refusing_server uris None None).2 = Some msg
          ∧ ("", Some "No URI to download.") = ("", Some msg)
          ∧ perform (RpcCall "aria2.addUri" uris) st = perform (RpcCall "aria2.addUri" uris) st)
  ∨ ((reply_addUri refusing_server uris None None).2 = None
     ∧ ("", Some "No URI to download.")
       = reply_tellStatus refusing_server (reply_addUri refusing_server uris None None).1
     ∧ ∃ gid downloadDone st1,
         DownloadWithContext_submit "" refusing_server 1%positive uris None st
         = AtSelect gid downloadDone st1
         ∧ effects (perform (RpcCall "aria2.addUri" uris) st)
           = effects (run_wait_goroutine st1)
             ++ [RpcCall "aria2.tellStatus" [(reply_addUri refusing_server uris None None).1]]).
Proof.
  intros uris st.
  apply (Download_returns "" refusing_server 1%positive run_wait_goroutine 0 uris None st
           ("", Some "No URI to download.") (perform (RpcCall "aria2.addUri" uris) st)).
  reflexivity.
Defined.

Lemma DownloadWithContext_end_to_end_witness :
  let uris := ["http://example.org/file"] in
  let st := @NewClient string in
  ∃ gid downloadDone st1 ch st2,
    DownloadWithContext_submit "" stubborn_server 1%positive uris None st
    = AtSelect gid downloadDone st1
    ∧ GID.GID gid = (reply_addUri stubborn_server uris None None).1
    ∧ GID_WaitForDownload_register gid st1 = (ch, st2)
    ∧ GoWait_run gid downloadDone st1 = Parks st2
    ∧ ∀ handler,
        handler ∈ [@onDownloadStop string; onDownloadComplete; onDownloadError] →
        ∃ st3 st4 st5,
          handler (DownloadEvent.mk (GID.GID gid)) st2 = Returns None st3
          ∧ GoWait_receive gid ch downloadDone st3 = Returns tt st4
          ∧ activeGIDs st4 !! GID.GID gid = None
          ∧ DownloadWithContext_select "" stubborn_server gid downloadDone false 0 st4
            = Returns (reply_tellStatus stubborn_server (GID.GID gid)) st5
          ∧ (∀ meanwhile, meanwhile st1 = st4 →
               DownloadWithContext "" stubborn_server 1%positive meanwhile false 0 uris None st
               = Returns (reply_tellStatus stubborn_server (GID.GID gid)) st5).
Proof.
  intros uris st.
  apply (DownloadWithContext_end_to_end "" stubborn_server 1%positive 0 uris None st).
  - reflexivity.
  - intros ch Hch. vm_compute in Hch. discriminate Hch.
Defined.

Lemma cancelled_wait_is_cleaned_up_later_witness :
  let uris := ["http://example.org/file"] in
  let st := @NewClient string in
  ∃ gid downloadDone st1 ch st',
    DownloadWithContext_submit "" stubborn_server 1%positive uris None st
    = AtSelect gid downloadDone st1
    ∧ GoWait_run gid downloadDone st1 = Parks (run_wait_goroutine st1)
    ∧ DownloadWithContext "" stubborn_server 1%positive run_wait_goroutine true 0 uris None st
      = Returns ("", errors_New "download cancelled") st'
    ∧ activeGIDs st' !! GID.GID gid = Some ch
    ∧ ∀ handler,
        handler ∈ [@onDownloadStop string; onDownloadComplete; onDownloadError] →
        ∃ st3 st4,
          handler (DownloadEvent.mk (GID.GID gid)) st' = Returns None st3
          ∧ GoWait_receive gid ch downloadDone st3 = Returns tt st4
          ∧ activeGIDs st4 !! GID.GID gid = None.
Proof.
  intros uris st.
  apply (cancelled_wait_is_cleaned_up_later "" stubborn_server 1%positive 0 uris None st).
  - reflexivity.
  - intros ch Hch. vm_compute in Hch. discriminate Hch.
Defined.
